(** * htmlgen: a shallow embedding of the HTML/CSS generation library

    The development follows [src/htmlgen/__init__.py]: the node model
    ([Element], [HtmlSequence], [HtmlStr]), the renderer ([render],
    [render_tag], [render_attributes]) and the style [Registry].  The
    older variant of the registry ([htmlgen.py], class
    [ComponentRegistry]) is embedded in the module [Legacy].

    Python strings are modelled by [string]; a character is a code point
    below 256.  Insertion-ordered dictionaries are association lists whose
    keys are kept distinct by [dict_set].  Calls to [logger.warning] are
    collected by a writer monad, exceptions are the left summand of a
    sum. *)

From Stdlib Require Import List String Ascii Bool Arith Lia.
Import ListNotations.

Set Warnings "-register-all".

Open Scope list_scope.
Open Scope string_scope.

(** ** Characters that cannot be written inside a literal *)

Definition LF : ascii := ascii_of_nat 10.
Definition DQUOTE : ascii := ascii_of_nat 34.

Definition NL : string := String LF EmptyString.
Definition DQ : string := String DQUOTE EmptyString.

(** ** The string methods of Python the library calls *)

Module PyStr.

(** [sep.join(parts)] *)
Definition join (sep : string) (parts : list string) : string :=
  String.concat sep parts.

(** [s.replace(old, new)] for a pattern [old] of one character, the only
    form the library uses. *)
Fixpoint replace_char (old : ascii) (new : string) (s : string) : string :=
  match s with
  | EmptyString => EmptyString
  | String c rest =>
      if Ascii.eqb c old then new ++ replace_char old new rest
      else String c (replace_char old new rest)
  end.

(** [s.startswith(p)] *)
Definition startswith (s p : string) : bool := String.prefix p s.

(** [s.endswith(suffix)] *)
Fixpoint endswith (s suffix : string) : bool :=
  if String.eqb s suffix then true
  else match s with
       | EmptyString => false
       | String _ rest => endswith rest suffix
       end.

(** [needle in hay] *)
Fixpoint contains (needle hay : string) : bool :=
  String.prefix needle hay
  || match hay with
     | EmptyString => false
     | String _ rest => contains needle rest
     end.

(** [s.removesuffix(suffix)] *)
Definition removesuffix (s suffix : string) : string :=
  if negb (String.eqb suffix EmptyString) && endswith s suffix
  then String.substring 0 (String.length s - String.length suffix) s
  else s.

(** [c.isspace()] on the code points below 256. *)
Definition isspace (c : ascii) : bool :=
  let n := nat_of_ascii c in
  (((9 <=? n) && (n <=? 13)) || ((28 <=? n) && (n <=? 32))
   || (n =? 133) || (n =? 160))%nat.

Fixpoint lstrip (s : string) : string :=
  match s with
  | EmptyString => EmptyString
  | String c rest => if isspace c then lstrip rest else s
  end.

Fixpoint rstrip (s : string) : string :=
  match s with
  | EmptyString => EmptyString
  | String c rest =>
      match rstrip rest with
      | EmptyString => if isspace c then EmptyString else String c EmptyString
      | kept => String c kept
      end
  end.

(** [s.strip()] *)
Definition strip (s : string) : string := rstrip (lstrip s).

(** The line boundaries of [str.splitlines] below 256, the pair CR LF
    apart. *)
Definition is_linebreak (c : ascii) : bool :=
  let n := nat_of_ascii c in
  (((10 <=? n) && (n <=? 13)) || ((28 <=? n) && (n <=? 30))
   || (n =? 133))%nat.

Fixpoint splitlines_from (cur : string) (s : string) : list string :=
  match s with
  | EmptyString =>
      match cur with
      | EmptyString => []
      | _ => [cur]
      end
  | String c rest =>
      let line := cur ++ String c EmptyString in
      if Nat.eqb (nat_of_ascii c) 13 then
        match rest with
        | String d rest' =>
            if Ascii.eqb d LF
            then (line ++ NL) :: splitlines_from EmptyString rest'
            else line :: splitlines_from EmptyString rest
        | EmptyString => [line]
        end
      else if is_linebreak c then line :: splitlines_from EmptyString rest
      else splitlines_from line rest
  end.

(** [s.splitlines(True)] *)
Definition splitlines_keepends (s : string) : list string :=
  splitlines_from EmptyString s.

(** [s.split(NL)]: the lines the MULTILINE anchors of [re] see. *)
Fixpoint split_nl_from (cur : string) (s : string) : list string :=
  match s with
  | EmptyString => [cur]
  | String c rest =>
      if Ascii.eqb c LF then cur :: split_nl_from EmptyString rest
      else split_nl_from (cur ++ String c EmptyString) rest
  end.

Definition split_nl (s : string) : list string :=
  split_nl_from EmptyString s.

(** [s.split()]: the words between runs of whitespace. *)
Fixpoint split_from (cur : string) (s : string) : list string :=
  match s with
  | EmptyString =>
      match cur with
      | EmptyString => []
      | _ => [cur]
      end
  | String c rest =>
      if isspace c then
        match cur with
        | EmptyString => split_from EmptyString rest
        | _ => cur :: split_from EmptyString rest
        end
      else split_from (cur ++ String c EmptyString) rest
  end.

Definition split (s : string) : list string := split_from EmptyString s.

End PyStr.

(** ** [html.escape] *)

Module html.

(** [html.escape(s)] with its default [quote=True]: five replacements one
    after the other, the ampersand first. *)
Definition escape (s : string) : string :=
  let s := PyStr.replace_char "&" "&amp;" s in
  let s := PyStr.replace_char "<" "&lt;" s in
  let s := PyStr.replace_char ">" "&gt;" s in
  let s := PyStr.replace_char DQUOTE "&quot;" s in
  let s := PyStr.replace_char "'" "&#x27;" s in
  s.

End html.

(** ** [textwrap] *)

Module textwrap.

(** [textwrap.indent(text, prefix)] with the default predicate: a line gets
    the prefix when [line.strip()] is not empty. *)
Definition indent (text prefix : string) : string :=
  PyStr.join EmptyString
    (map (fun line =>
            match PyStr.strip line with
            | EmptyString => line
            | _ => prefix ++ line
            end)
         (PyStr.splitlines_keepends text)).

Definition is_blank (c : ascii) : bool :=
  Ascii.eqb c " " || Nat.eqb (nat_of_ascii c) 9.

(** The leading run of spaces and tabs of a line, and what follows it. *)
Fixpoint span_blank (line : string) : string * string :=
  match line with
  | EmptyString => (EmptyString, EmptyString)
  | String c rest =>
      if is_blank c
      then let '(ws, tl) := span_blank rest in (String c ws, tl)
      else (EmptyString, line)
  end.

(** [_whitespace_only_re.sub('', text)] on one line: a line of spaces and
    tabs only becomes empty. *)
Definition blank_line (line : string) : string :=
  match snd (span_blank line) with
  | EmptyString => EmptyString
  | _ => line
  end.

(** [_leading_whitespace_re.findall(text)] on one line: the indentation of
    a line that has a character other than space and tab. *)
Definition leading (line : string) : option string :=
  match span_blank line with
  | (_, EmptyString) => None
  | (ws, _) => Some ws
  end.

(** The inner loop of [dedent]: cut the margin at the first place where it
    differs from the indentation. *)
Fixpoint common (margin ind : string) : string :=
  match margin, ind with
  | String x m', String y i' =>
      if Ascii.eqb x y then String x (common m' i') else EmptyString
  | _, _ => margin
  end.

Definition step_margin (margin : option string) (ind : string)
  : option string :=
  match margin with
  | None => Some ind
  | Some m =>
      if PyStr.startswith ind m then Some m
      else if PyStr.startswith m ind then Some ind
      else Some (common m ind)
  end.

Fixpoint filter_some {A} (l : list (option A)) : list A :=
  match l with
  | [] => []
  | Some a :: l' => a :: filter_some l'
  | None :: l' => filter_some l'
  end.

Definition remove_margin (m line : string) : string :=
  if PyStr.startswith line m
  then String.substring (String.length m)
         (String.length line - String.length m) line
  else line.

(** [textwrap.dedent(text)] *)
Definition dedent (text : string) : string :=
  let lines := map blank_line (PyStr.split_nl text) in
  let indents := filter_some (map leading lines) in
  match fold_left step_margin indents None with
  | None | Some EmptyString => PyStr.join NL lines
  | Some m => PyStr.join NL (map (remove_margin m) lines)
  end.

End textwrap.

(** ** Regular expressions: the fragment of [re] the library uses *)

Module re.

Inductive regex : Type :=
| Void : regex
| Eps : regex
| Range (lo hi : ascii) : regex
| Chr (c : ascii) : regex
| Alt (r1 r2 : regex) : regex
| Seq (r1 r2 : regex) : regex
| Star (r : regex) : regex.

Definition in_range (lo hi c : ascii) : bool :=
  Nat.leb (nat_of_ascii lo) (nat_of_ascii c)
  && Nat.leb (nat_of_ascii c) (nat_of_ascii hi).

Fixpoint nullable (r : regex) : bool :=
  match r with
  | Void => false
  | Eps => true
  | Range _ _ => false
  | Chr _ => false
  | Alt r1 r2 => nullable r1 || nullable r2
  | Seq r1 r2 => nullable r1 && nullable r2
  | Star _ => true
  end.

Fixpoint deriv (c : ascii) (r : regex) : regex :=
  match r with
  | Void => Void
  | Eps => Void
  | Range lo hi => if in_range lo hi c then Eps else Void
  | Chr d => if Ascii.eqb c d then Eps else Void
  | Alt r1 r2 => Alt (deriv c r1) (deriv c r2)
  | Seq r1 r2 =>
      if nullable r1
      then Alt (Seq (deriv c r1) r2) (deriv c r2)
      else Seq (deriv c r1) r2
  | Star r1 => Seq (deriv c r1) (Star r1)
  end.

(** [pattern.fullmatch(s)] as a truth value: the whole of [s] matches. *)
Fixpoint fullmatch (pattern : regex) (s : string) : bool :=
  match s with
  | EmptyString => nullable pattern
  | String c rest => fullmatch (deriv c pattern) rest
  end.

(** The words of a pattern. *)
Inductive matches : regex -> string -> Prop :=
| m_eps : matches Eps EmptyString
| m_range lo hi c :
    in_range lo hi c = true -> matches (Range lo hi) (String c EmptyString)
| m_chr c : matches (Chr c) (String c EmptyString)
| m_alt_l r1 r2 s : matches r1 s -> matches (Alt r1 r2) s
| m_alt_r r1 r2 s : matches r2 s -> matches (Alt r1 r2) s
| m_seq r1 r2 s1 s2 :
    matches r1 s1 -> matches r2 s2 -> matches (Seq r1 r2) (s1 ++ s2)
| m_star_nil r : matches (Star r) EmptyString
| m_star_app r s1 s2 :
    matches r s1 -> matches (Star r) s2 -> matches (Star r) (s1 ++ s2).

End re.

(** [DATA_KEY_PATTERN = re.compile("[a-z][a-z-]*")] *)
Definition DATA_KEY_PATTERN : re.regex :=
  re.Seq (re.Range "a" "z") (re.Star (re.Alt (re.Range "a" "z") (re.Chr "-"))).

(** ** Logging and exceptions *)

Inductive LogRecord : Type :=
| UnknownTagWarning (type : string)
| DuplicateClassnameWarning (classname : string)
| WithAttributeIgnored
| WithClassIgnored.

Inductive Exception : Type :=
| ValueError (key : string).

(** A computation that returns a value and the records it logged, in the
    order of the calls. *)
Definition Logged (A : Type) : Type := A * list LogRecord.

Definition ret {A} (a : A) : Logged A := (a, []).

Definition bind {A B} (m : Logged A) (k : A -> Logged B) : Logged B :=
  let '(a, l1) := m in
  let '(b, l2) := k a in
  (b, (l1 ++ l2)%list).

Definition warning (r : LogRecord) : Logged unit := (tt, [r]).

Definition value {A} (m : Logged A) : A := fst m.
Definition records {A} (m : Logged A) : list LogRecord := snd m.

Notation "x <- m ;; k" := (bind m (fun x => k))
  (at level 61, m at next level, right associativity).
Notation "m ;;; k" := (bind m (fun _ => k))
  (at level 61, right associativity).

(** The values of a generator whose items log: one after the other. *)
Fixpoint collect {A} (ms : list (Logged A)) : Logged (list A) :=
  match ms with
  | [] => ret []
  | m :: ms' => a <- m ;; rest <- collect ms' ;; ret (a :: rest)
  end.

(** ** Insertion-ordered dictionaries *)

Section Dict.
Context {V : Type}.

Definition dict : Type := list (string * V).

Fixpoint dict_get (k : string) (d : dict) : option V :=
  match d with
  | [] => None
  | (k', v) :: d' => if String.eqb k k' then Some v else dict_get k d'
  end.

(** [k in d] *)
Definition dict_mem (k : string) (d : dict) : bool :=
  match dict_get k d with
  | Some _ => true
  | None => false
  end.

(** [d[k] = v]: a key already there keeps its place. *)
Fixpoint dict_set (k : string) (v : V) (d : dict) : dict :=
  match d with
  | [] => [(k, v)]
  | (k', v') :: d' =>
      if String.eqb k k' then (k, v) :: d' else (k', v') :: dict_set k v d'
  end.

(** [d.update(items)] *)
Definition dict_update (d : dict) (items : list (string * V)) : dict :=
  fold_left (fun acc kv => dict_set (fst kv) (snd kv) acc) items d.

Definition keys (d : dict) : list string := map fst d.

(** [del d[k]] for a key that is there. *)
Fixpoint dict_del (k : string) (d : dict) : dict :=
  match d with
  | [] => []
  | (k', v) :: d' =>
      if String.eqb k k' then d' else (k', v) :: dict_del k d'
  end.

End Dict.

Arguments dict : clear implicits.

(** [l.append(x)] *)
Definition list_append {A} (l : list A) (x : A) : list A := (l ++ [x])%list.

(** [x in s] for a set of strings. *)
Definition mem (x : string) (s : list string) : bool :=
  existsb (String.eqb x) s.

(** [s.add(x)] *)
Definition set_add (x : string) (s : list string) : list string :=
  if mem x s then s else list_append s x.

(** ** The tag tables *)

Definition NO_INDENT_ELEMENTS : list string := ["pre"].

Definition VOID_ELEMENTS : list string :=
  ["area"; "base"; "br"; "col"; "embed"; "hr"; "img"; "input"; "link";
   "meta"; "source"; "track"; "wbr"].

Definition ALL_ELEMENTS : list string :=
  ["article"; "section"; "nav"; "aside"; "h1"; "h2"; "h3"; "h4"; "h5"; "h6";
   "hgroup"; "header"; "footer"; "address"; "p"; "hr"; "pre"; "blockquote";
   "ol"; "ul"; "menu"; "li"; "dl"; "dt"; "dd"; "figure"; "figcaption";
   "main"; "div"; "a"; "em"; "strong"; "small"; "s"; "cite"; "q"; "dfn";
   "abbr"; "ruby"; "rt"; "rp"; "data"; "time"; "code"; "var"; "samp"; "kbd";
   "sub"; "sup"; "i"; "b"; "u"; "mark"; "bdi"; "bdo"; "span"; "br"; "wbr";
   "ins"; "del"; "picture"; "source"; "img"; "iframe"; "embed"; "object";
   "video"; "audio"; "track"; "map"; "area"; "table"; "caption"; "colgroup";
   "col"; "tbody"; "thead"; "tfoot"; "tr"; "td"; "th"; "form"; "label";
   "input"; "button"; "select"; "datalist"; "optgroup"; "option";
   "textarea"; "output"; "progress"; "meter"; "fieldset"; "legend";
   "details"; "summary"; "dialog"; "script"; "noscript"; "template"; "slot";
   "canvas"].

(** ** The node model *)

(** An attribute value: [str | bool | None]. *)
Inductive AttrValue : Type :=
| AStr (s : string)
| ABool (b : bool)
| ANone.

Definition Attributes : Type := dict AttrValue.

(** The three kinds of [HtmlRenderable].  The fields of [Element] are, in
    the order of the dataclass, [type], [attributes], [children] and
    [classes]; the set of classes is kept in its iteration order. *)
Inductive HtmlRenderable : Type :=
| Element (type : string) (attributes : Attributes)
          (children : list HtmlRenderable) (classes : list string)
| HtmlSequence (children : list HtmlRenderable)
| HtmlStr (s : string).

(** The class method [HtmlStr.escape]. *)
Definition HtmlStr_escape (s : string) : HtmlRenderable :=
  HtmlStr (html.escape s).

(** [Contents = HtmlRenderable | str] *)
Inductive Contents : Type :=
| CNode (n : HtmlRenderable)
| CStr (s : string).

(** The property [must_be_inline] of each kind. *)
Fixpoint must_be_inline (self : HtmlRenderable) : bool :=
  match self with
  | Element _ _ _ _ => false
  | HtmlSequence children => existsb must_be_inline children
  | HtmlStr _ => true
  end.

(** The property [Element.void]. *)
Definition void (self : HtmlRenderable) : bool :=
  match self with
  | Element type _ _ _ => mem type VOID_ELEMENTS
  | _ => false
  end.

Definition children_of (self : HtmlRenderable) : list HtmlRenderable :=
  match self with
  | Element _ _ children _ => children
  | HtmlSequence children => children
  | HtmlStr _ => []
  end.

(** [Element.containing]: a bare string is wrapped in [HtmlStr].  The method
    is defined on elements only. *)
Definition wrap (i : Contents) : HtmlRenderable :=
  match i with
  | CStr s => HtmlStr s
  | CNode n => n
  end.

Definition containing (self : HtmlRenderable) (items : list Contents)
  : HtmlRenderable :=
  match self with
  | Element type attributes children classes =>
      Element type attributes (children ++ map wrap items)%list classes
  | other => other
  end.

(** [with_attribute]: [Element] updates its dictionary, the other kinds log
    a warning and return themselves. *)
Definition with_attribute (self : HtmlRenderable)
  (attributes : list (string * AttrValue)) : Logged HtmlRenderable :=
  match self with
  | Element type attrs children classes =>
      ret (Element type (dict_update attrs attributes) children classes)
  | other => warning WithAttributeIgnored ;;; ret other
  end.

(** [with_class], in the same way. *)
Definition with_class (self : HtmlRenderable) (classnames : list string)
  : Logged HtmlRenderable :=
  match self with
  | Element type attrs children classes =>
      ret (Element type attrs children
             (fold_left (fun s c => set_add c s) classnames classes))
  | other => warning WithClassIgnored ;;; ret other
  end.

(** [Element.with_data]: every key is checked before the dictionary is
    touched; the first key that fails raises [ValueError].  Like
    [containing], the method is defined on elements only. *)
Fixpoint check_data_keys (data : list (string * string)) : Exception + unit :=
  match data with
  | [] => inr tt
  | (key, _) :: data' =>
      if negb (re.fullmatch DATA_KEY_PATTERN key) then inl (ValueError key)
      else check_data_keys data'
  end.

Definition with_data (self : HtmlRenderable) (data : dict string)
  : Exception + HtmlRenderable :=
  match check_data_keys data with
  | inl e => inl e
  | inr _ =>
      match self with
      | Element type attrs children classes =>
          inr (Element type
                 (dict_update attrs
                    (map (fun kv => ("data-" ++ fst kv, AStr (snd kv))) data))
                 children classes)
      | other => inr other
      end
  end.

(** The constructor [Element(type, attributes, children, classes)] with its
    [__post_init__].  The attributes are given with the type the dataclass
    declares, [dict[str, str | None]]; the record of the warning the
    constructor logs is [ClassAsAttributeWarning]. *)
Inductive InitRecord : Type :=
| ClassAsAttributeWarning.

Definition attr_of (v : option string) : AttrValue :=
  match v with
  | Some s => AStr s
  | None => ANone
  end.

Definition attrs_of (attributes : dict (option string)) : Attributes :=
  map (fun kv => (fst kv, attr_of (snd kv))) attributes.

Definition Element_init (type : string) (attributes : dict (option string))
  (children : list HtmlRenderable) (classes : list string)
  : HtmlRenderable * list InitRecord :=
  match dict_get "class" attributes with
  | Some (Some class_str) =>
      (Element type (attrs_of (dict_del "class" attributes)) children
         (fold_left (fun s classname => set_add classname s)
            (PyStr.split class_str) classes),
       [ClassAsAttributeWarning])
  | _ => (Element type (attrs_of attributes) children classes, [])
  end.

(** ** The renderer *)

(** [render_attributes(attrs, classes)]: the list [rendered_attrs] grows by
    [append], first the classes, then one attribute after the other. *)
Definition append_attribute (rendered_attrs : list string)
  (item : string * AttrValue) : list string :=
  let '(name, value) := item in
  match value with
  | ABool false | ANone => rendered_attrs
  | ABool true => list_append rendered_attrs name
  | AStr v =>
      list_append rendered_attrs (name ++ "=" ++ DQ ++ html.escape v ++ DQ)
  end.

Definition render_attributes (attrs : Attributes) (classes : list string)
  : string :=
  let rendered_attrs := [] in
  let rendered_attrs :=
    match classes with
    | [] => rendered_attrs
    | _ =>
        let class_value := PyStr.join " " (map html.escape classes) in
        list_append rendered_attrs ("class=" ++ DQ ++ class_value ++ DQ)
    end in
  let rendered_attrs := fold_left append_attribute attrs rendered_attrs in
  PyStr.join EmptyString (map (fun r => " " ++ r) rendered_attrs).

(** [render_tag(type, attrs, classes, contents, indent, inline)] *)
Definition render_tag (type : string) (attrs : Attributes)
  (classes : list string) (contents : option string) (indent : string)
  (inline : bool) : Logged string :=
  (if negb (mem type ALL_ELEMENTS) then warning (UnknownTagWarning type)
   else ret tt) ;;;
  let '(indent, inline) :=
    if mem type NO_INDENT_ELEMENTS then (EmptyString, true)
    else (indent, inline) in
  let rendered_attrs := render_attributes attrs classes in
  match contents with
  | None => ret (indent ++ "<" ++ type ++ rendered_attrs ++ "/>")
  | Some contents =>
      let open_tag := "<" ++ type ++ rendered_attrs ++ ">" in
      let close_tag := "</" ++ type ++ ">" in
      if inline then ret (indent ++ open_tag ++ contents ++ close_tag)
      else ret (indent ++ open_tag ++ NL ++ contents ++ NL
                  ++ indent ++ close_tag)
  end.

(** The method [render] of the three kinds. *)
Fixpoint render (self : HtmlRenderable) (indent : string) (inline : bool)
  {struct self} : Logged string :=
  match self with
  | Element type attributes children classes =>
      let inline :=
        must_be_inline self || existsb must_be_inline children in
      contents <-
        (if void self then ret None
         else if inline then
           parts <- collect (map (fun c => render c EmptyString true) children) ;;
           ret (Some (PyStr.join EmptyString parts))
         else
           parts <- collect
                      (map (fun c => render c (indent ++ "  ") false) children) ;;
           ret (Some (PyStr.join NL parts))) ;;
      render_tag type attributes classes contents indent inline
  | HtmlSequence children =>
      if inline then
        parts <- collect (map (fun c => render c EmptyString true) children) ;;
        ret (PyStr.join EmptyString parts)
      else
        parts <- collect (map (fun c => render c indent false) children) ;;
        ret (PyStr.join NL parts)
  | HtmlStr s => ret (indent ++ s)
  end.

(** ** The style registry *)

(** A builder function: its [__name__] and what a call of it returns. *)
Record ElementFunc (A : Type) : Type := {
  __name__ : string;
  call : A -> Logged HtmlRenderable
}.

Arguments __name__ {A} _.
Arguments call {A} _ _.

Record Registry : Type := { styles : dict string }.

(** [Registry()] *)
Definition Registry_init : Registry := {| styles := [] |}.

(** [Registry.render_stylesheet] *)
Definition render_block (item : string * string) : string :=
  let '(name, style) := item in
  "." ++ name ++ " {" ++ NL ++ textwrap.indent style "  " ++ NL ++ "}".

Definition render_stylesheet (self : Registry) : string :=
  PyStr.join NL (map render_block (styles self)).

(** The class a decorated function gets:
    [func.__name__.replace("_", "-").removesuffix("-")] *)
Definition classname_of (func_name : string) : string :=
  PyStr.removesuffix (PyStr.replace_char "_" "-" func_name) "-".

(** [Registry.style(css)(func)]: the registry after the call and the
    wrapper the decorator returns. *)
Definition style {A} (self : Registry) (css : option string)
  (func : ElementFunc A) : Logged (Registry * ElementFunc A) :=
  let classname := classname_of (__name__ func) in
  (if dict_mem classname (styles self)
   then warning (DuplicateClassnameWarning classname)
   else ret tt) ;;;
  let self :=
    match css with
    | Some css =>
        {| styles :=
             dict_set classname (PyStr.strip (textwrap.dedent css))
               (styles self) |}
    | None => self
    end in
  let wrapper :=
    {| __name__ := __name__ func;
       call := fun args =>
                 result <- call func args ;;
                 with_class result [classname] |} in
  ret (self, wrapper).

(** The decorator applied to a function, [@r.style(css)] above its
    definition: the registry afterwards. *)
Definition register {A} (self : Registry)
  (reg : option string * ElementFunc A) : Registry :=
  fst (value (style self (fst reg) (snd reg))).

(** The registry of the older variant, [htmlgen.py]. *)
Module Legacy.

(** [ComponentRegistry.stylesheet] *)
Definition stylesheet (styles : dict string) : string :=
  PyStr.join NL
    (map (fun item : string * string =>
            let '(name, style) := item in
            PyStr.replace_char "&" ("." ++ name) style)
         styles).

(** [render_attrs(attrs)] of the older variant. *)
Definition render_attrs (attrs : dict (option string)) : string :=
  PyStr.join EmptyString
    (flat_map (fun item : string * option string =>
                 let '(key, value) := item in
                 match value with
                 | Some value =>
                     [" " ++ key ++ "=" ++ DQ ++ html.escape value ++ DQ]
                 | None => []
                 end)
       attrs).

(** The nodes of the older variant: the same three kinds, the attributes
    of an element with the type its dataclass declares. *)
Inductive HtmlRenderable : Type :=
| Element (type : string) (attributes : dict (option string))
          (children : list HtmlRenderable) (classes : list string)
| HtmlSequence (children : list HtmlRenderable)
| HtmlStr (s : string).

Fixpoint must_be_inline (self : HtmlRenderable) : bool :=
  match self with
  | Element _ _ _ _ => false
  | HtmlSequence children => existsb must_be_inline children
  | HtmlStr _ => true
  end.

(** [sorted(classes)]: the strings in ascending order. *)
Fixpoint insert (x : string) (l : list string) : list string :=
  match l with
  | [] => [x]
  | y :: l' => if String.leb x y then x :: l else y :: insert x l'
  end.

Definition sorted (l : list string) : list string := fold_right insert [] l.

(** [Element.render_attributes] of the older variant: the items it
    yields, the class attribute first. *)
Definition class_items (classes : list string) : list string :=
  match classes with
  | [] => []
  | _ =>
      ["class=" ++ DQ ++ html.escape (PyStr.join " " (sorted classes)) ++ DQ]
  end.

Definition attribute_item (item : string * option string) : string :=
  let '(name, value) := item in
  match value with
  | None => name
  | Some value => name ++ "=" ++ DQ ++ html.escape value ++ DQ
  end.

Definition render_attributes (attributes : dict (option string))
  (classes : list string) : list string :=
  (class_items classes ++ map attribute_item attributes)%list.

(** The method [render] of the older variant. *)
Fixpoint render (self : HtmlRenderable) (indent : string) (inline : bool)
  {struct self} : string :=
  match self with
  | Element type attributes children classes =>
      let indent :=
        if mem type NO_INDENT_ELEMENTS then EmptyString else indent in
      let attributes :=
        PyStr.join EmptyString
          (map (fun a => " " ++ a) (render_attributes attributes classes)) in
      if mem type VOID_ELEMENTS
      then indent ++ "<" ++ type ++ attributes ++ "/>"
      else
        let open_tag := "<" ++ type ++ attributes ++ ">" in
        let close_tag := "</" ++ type ++ ">" in
        if inline || existsb must_be_inline children then
          let contents :=
            PyStr.join EmptyString
              (map (fun c => render c EmptyString true) children) in
          indent ++ open_tag ++ contents ++ close_tag
        else
          let contents :=
            PyStr.join NL
              (map (fun c => render c (indent ++ "  ") false) children) in
          indent ++ open_tag ++ NL ++ contents ++ NL ++ indent ++ close_tag
  | HtmlSequence children =>
      if inline then
        PyStr.join EmptyString
          (map (fun c => render c EmptyString true) children)
      else PyStr.join NL (map (fun c => render c indent false) children)
  | HtmlStr s => indent ++ s
  end.

(** A tree of the older variant without a newline in its texts, its tags
    and the attributes of its tags. *)
Fixpoint newline_free (self : HtmlRenderable) : bool :=
  match self with
  | Element type attributes children classes =>
      negb (PyStr.contains NL type)
      && negb (PyStr.contains NL
                 (PyStr.join EmptyString
                    (map (fun a => " " ++ a)
                       (render_attributes attributes classes))))
      && forallb newline_free children
  | HtmlSequence children => forallb newline_free children
  | HtmlStr s => negb (PyStr.contains NL s)
  end.

End Legacy.

(** ** The vocabulary of the properties

    These definitions follow the words of the documentation; the theorems
    compare them with the definitions above, which follow the code. *)

(** The entity that stands for a character in escaped text. *)
Definition escape_char (c : ascii) : string :=
  if Ascii.eqb c "&" then "&amp;"
  else if Ascii.eqb c "<" then "&lt;"
  else if Ascii.eqb c ">" then "&gt;"
  else if Ascii.eqb c DQUOTE then "&quot;"
  else if Ascii.eqb c "'" then "&#x27;"
  else String c EmptyString.

(** A data key as the documentation words it: lowercase letters and hyphens
    only, starting with a letter. *)
Definition is_lower (c : ascii) : bool := re.in_range "a" "z" c.

Definition is_lower_or_hyphen (c : ascii) : bool :=
  is_lower c || Ascii.eqb c "-".

Fixpoint all_chars (p : ascii -> bool) (s : string) : bool :=
  match s with
  | EmptyString => true
  | String c rest => p c && all_chars p rest
  end.

Definition valid_data_key (key : string) : bool :=
  match key with
  | EmptyString => false
  | String c rest => is_lower c && all_chars is_lower_or_hyphen rest
  end.

(** The text one attribute adds to a tag: the bare name for true, nothing
    for false and for None, the name and the escaped value between double
    quotes for a string. *)
Definition attribute_text (item : string * AttrValue) : string :=
  match snd item with
  | ABool true => " " ++ fst item
  | ABool false => EmptyString
  | ANone => EmptyString
  | AStr v => " " ++ fst item ++ "=" ++ DQ ++ html.escape v ++ DQ
  end.

(** The text the classes add to a tag: one class attribute when there is
    a class. *)
Definition class_text (classes : list string) : string :=
  match classes with
  | [] => EmptyString
  | _ => " class=" ++ DQ ++ PyStr.join " " (map html.escape classes) ++ DQ
  end.

(** The records a rendering logs: the unknown tags of the elements, the
    children before their parent, nothing from below a void element. *)
Fixpoint render_log (self : HtmlRenderable) : list LogRecord :=
  match self with
  | Element type _ children _ =>
      ((if mem type VOID_ELEMENTS then [] else flat_map render_log children)
       ++ (if mem type ALL_ELEMENTS then [] else [UnknownTagWarning type]))%list
  | HtmlSequence children => flat_map render_log children
  | HtmlStr _ => []
  end.

(** Every element of the tree has a tag of [ALL_ELEMENTS]. *)
Fixpoint tags_known (self : HtmlRenderable) : bool :=
  match self with
  | Element type _ children _ =>
      mem type ALL_ELEMENTS && forallb tags_known children
  | HtmlSequence children => forallb tags_known children
  | HtmlStr _ => true
  end.

(** An attribute value that leaves no trace in a tag. *)
Definition omitted (v : AttrValue) : bool :=
  match v with
  | ABool false => true
  | ANone => true
  | _ => false
  end.

(** The body the registry holds for a class after the registrations [regs]:
    the one of the last registration that gives a body and derives the
    class. *)
Definition registers {A} (classname : string)
  (reg : option string * ElementFunc A) : bool :=
  match fst reg with
  | Some _ => String.eqb (classname_of (__name__ (snd reg))) classname
  | None => false
  end.

Definition last_body {A} (classname : string)
  (regs : list (option string * ElementFunc A)) : option string :=
  match find (registers classname) (rev regs) with
  | Some (Some css, _) => Some (PyStr.strip (textwrap.dedent css))
  | _ => None
  end.

(** A tree that has no newline of its own and asks for no block: no
    newline in a text, a tag or the attributes of a tag, and every element
    that is not void has a child that must be inline. *)
Fixpoint one_line (self : HtmlRenderable) : bool :=
  match self with
  | Element type attributes children classes =>
      negb (PyStr.contains NL type)
      && negb (PyStr.contains NL (render_attributes attributes classes))
      && (mem type VOID_ELEMENTS
          || (existsb must_be_inline children && forallb one_line children))
  | HtmlSequence children => forallb one_line children
  | HtmlStr s => negb (PyStr.contains NL s)
  end.

(** * Properties *)

(** ** Strings *)

Lemma append_nil_r (s : string) : s ++ EmptyString = s.
Proof. induction s as [|c s IH]; simpl; [reflexivity | now rewrite IH]. Qed.

Lemma append_assoc (a b c : string) : (a ++ b) ++ c = a ++ (b ++ c).
Proof. induction a as [|x a IH]; simpl; [reflexivity | now rewrite IH]. Qed.

Lemma endswith_unfold (s suffix : string) :
  PyStr.endswith s suffix
  = if String.eqb s suffix then true
    else match s with
         | EmptyString => false
         | String _ rest => PyStr.endswith rest suffix
         end.
Proof. destruct s; reflexivity. Qed.

Lemma endswith_append (a suffix : string) :
  PyStr.endswith (a ++ suffix) suffix = true.
Proof.
  induction a as [|c a IH]; rewrite endswith_unfold.
  - simpl. now rewrite String.eqb_refl.
  - destruct (String.eqb (String c a ++ suffix) suffix); [reflexivity|].
    exact IH.
Qed.

(** [html.escape] rewrites its argument character by character. *)
Lemma escape_String (c : ascii) (s : string) :
  html.escape (String c s) = escape_char c ++ html.escape s.
Proof.
  unfold html.escape, escape_char; simpl.
  destruct (Ascii.eqb_spec c "&") as [->|H1].
  { reflexivity. }
  simpl. destruct (Ascii.eqb_spec c "<") as [->|H2].
  { reflexivity. }
  simpl. destruct (Ascii.eqb_spec c ">") as [->|H3].
  { reflexivity. }
  simpl. destruct (Ascii.eqb_spec c DQUOTE) as [->|H4].
  { reflexivity. }
  simpl. destruct (Ascii.eqb_spec c "'") as [->|H5]; reflexivity.
Qed.

Lemma join_empty_cons (x : string) (xs : list string) :
  PyStr.join EmptyString (x :: xs) = x ++ PyStr.join EmptyString xs.
Proof.
  unfold PyStr.join. destruct xs as [|y ys]; simpl.
  - now rewrite append_nil_r.
  - reflexivity.
Qed.

Lemma join_empty_app (l1 l2 : list string) :
  PyStr.join EmptyString (l1 ++ l2)%list
  = PyStr.join EmptyString l1 ++ PyStr.join EmptyString l2.
Proof.
  induction l1 as [|x l1 IH].
  - reflexivity.
  - change ((x :: l1) ++ l2)%list with (x :: (l1 ++ l2))%list.
    now rewrite !join_empty_cons, IH, append_assoc.
Qed.

(** ** Regular expressions: the matcher decides the words of a pattern *)

Section Regex.
Import re.

Lemma matches_nullable r : matches r EmptyString -> nullable r = true.
Proof.
  intros H. remember EmptyString as w eqn:E.
  induction H; simpl; try reflexivity; try discriminate.
  - now rewrite IHmatches.
  - rewrite IHmatches by assumption. apply orb_true_r.
  - destruct s1; [simpl in E; subst s2 | discriminate].
    now rewrite IHmatches1, IHmatches2.
Qed.

Lemma nullable_matches r : nullable r = true -> matches r EmptyString.
Proof.
  induction r; simpl; intros H; try discriminate.
  - constructor.
  - apply orb_true_iff in H as [H|H];
      [apply m_alt_l | apply m_alt_r]; auto.
  - apply andb_true_iff in H as [H1 H2].
    change EmptyString with (EmptyString ++ EmptyString).
    constructor; auto.
  - constructor.
Qed.

Lemma deriv_sound c r :
  forall s, matches (deriv c r) s -> matches r (String c s).
Proof.
  induction r; simpl; intros s H.
  - inversion H.
  - inversion H.
  - destruct (in_range lo hi c) eqn:E; inversion H; subst.
    now constructor.
  - destruct (Ascii.eqb_spec c c0); inversion H; subst. constructor.
  - inversion H; subst; [apply m_alt_l | apply m_alt_r]; auto.
  - destruct (nullable r1) eqn:N.
    + inversion H as [| | | ? ? ? H' | ? ? ? H' | | |]; subst.
      * inversion H'; subst.
        change (String c (s1 ++ s2)) with (String c s1 ++ s2).
        constructor; auto.
      * change (String c s) with (EmptyString ++ String c s).
        constructor; auto using nullable_matches.
    + inversion H; subst.
      change (String c (s1 ++ s2)) with (String c s1 ++ s2).
      constructor; auto.
  - inversion H; subst.
    change (String c (s1 ++ s2)) with (String c s1 ++ s2).
    apply m_star_app; auto.
Qed.

Lemma deriv_complete c r w :
  matches r w -> forall s, w = String c s -> matches (deriv c r) s.
Proof.
  induction 1 as [ | lo hi c0 Hr | c0 | r1 r2 w H IH | r1 r2 w H IH
                 | r1 r2 s1 s2 H1 IH1 H2 IH2 | r | r s1 s2 H1 IH1 H2 IH2 ];
    intros s E; simpl.
  - discriminate.
  - injection E as -> <-. rewrite Hr. constructor.
  - injection E as -> <-. rewrite Ascii.eqb_refl. constructor.
  - apply m_alt_l; auto.
  - apply m_alt_r; auto.
  - destruct s1 as [|x s1].
    + simpl in E. rewrite (matches_nullable _ H1).
      apply m_alt_r; auto.
    + simpl in E. injection E as -> <-.
      destruct (nullable r1); [apply m_alt_l|]; constructor; auto.
  - discriminate.
  - destruct s1 as [|x s1].
    + simpl in E. specialize (IH2 _ E). exact IH2.
    + simpl in E. injection E as -> <-. constructor; auto.
Qed.

Lemma fullmatch_matches s :
  forall r, fullmatch r s = true <-> matches r s.
Proof.
  induction s as [|c s IH]; intros r; simpl.
  - split; [apply nullable_matches | apply matches_nullable].
  - rewrite IH. split.
    + apply deriv_sound.
    + intros H. now apply deriv_complete with (w := String c s).
Qed.

End Regex.

(** ** The data key pattern *)

Lemma star_lower_or_hyphen s :
  re.matches (re.Star (re.Alt (re.Range "a" "z") (re.Chr "-"))) s
  <-> all_chars is_lower_or_hyphen s = true.
Proof.
  split.
  - intros H.
    remember (re.Star (re.Alt (re.Range "a" "z") (re.Chr "-"))) as r eqn:E.
    induction H; try discriminate.
    + reflexivity.
    + injection E as ->. specialize (IHmatches2 eq_refl).
      inversion H as [| | | ? ? ? H' | ? ? ? H' | | |]; subst;
        inversion H'; subst; simpl; rewrite IHmatches2;
        unfold is_lower_or_hyphen, is_lower.
      * match goal with
        | Hr : re.in_range _ _ _ = true |- _ => now rewrite Hr
        end.
      * reflexivity.
  - induction s as [|c s IH]; simpl; intros H.
    + constructor.
    + apply andb_true_iff in H as [Hc Hs].
      change (String c s) with (String c EmptyString ++ s).
      apply re.m_star_app; [|auto].
      unfold is_lower_or_hyphen in Hc. apply orb_true_iff in Hc as [Hc|Hc].
      * apply re.m_alt_l. now constructor.
      * apply Ascii.eqb_eq in Hc as ->. apply re.m_alt_r. constructor.
Qed.

(** [DATA_KEY_PATTERN.fullmatch] accepts the keys of the documentation. *)
Lemma data_key_pattern_valid key :
  re.fullmatch DATA_KEY_PATTERN key = valid_data_key key.
Proof.
  apply eq_true_iff_eq. rewrite fullmatch_matches. unfold DATA_KEY_PATTERN.
  split.
  - intros H. inversion H as [| | | | | ? ? ? ? H1 H2 | |]; subst.
    inversion H1; subst. simpl. apply andb_true_iff. split.
    + assumption.
    + now apply star_lower_or_hyphen.
  - destruct key as [|c rest]; simpl; [discriminate|].
    intros H. apply andb_true_iff in H as [Hc Hs].
    change (String c rest) with (String c EmptyString ++ rest).
    constructor.
    + now constructor.
    + now apply star_lower_or_hyphen.
Qed.

(** ** Dictionaries *)

Section DictFacts.
Context {V : Type}.
Implicit Types (d : dict V) (k : string) (v : V).

Lemma dict_get_set_same k v d : dict_get k (dict_set k v d) = Some v.
Proof.
  induction d as [|[k' v'] d IH]; simpl.
  - now rewrite String.eqb_refl.
  - destruct (String.eqb k k') eqn:E; simpl.
    + now rewrite String.eqb_refl.
    + now rewrite E.
Qed.

Lemma dict_get_set_other k k' v d :
  k <> k' -> dict_get k (dict_set k' v d) = dict_get k d.
Proof.
  intros N. induction d as [|[k0 v0] d IH]; simpl.
  - apply String.eqb_neq in N. now rewrite N.
  - destruct (String.eqb_spec k' k0) as [->|N0]; simpl.
    + apply String.eqb_neq in N. now rewrite N.
    + destruct (String.eqb k k0); [reflexivity | exact IH].
Qed.

Lemma dict_get_update_other k d items :
  ~ In k (keys items) -> dict_get k (dict_update d items) = dict_get k d.
Proof.
  revert d. induction items as [|[k0 v0] items IH]; intros d N.
  - reflexivity.
  - unfold dict_update in *. simpl in *. rewrite IH by tauto.
    apply dict_get_set_other. intros ->. tauto.
Qed.

Lemma dict_get_update_in k v d items :
  NoDup (keys items) -> In (k, v) items ->
  dict_get k (dict_update d items) = Some v.
Proof.
  revert d. induction items as [|[k0 v0] items IH]; intros d ND I.
  - destruct I.
  - simpl in ND. inversion ND as [|? ? N0 ND']; subst.
    destruct I as [E|I].
    + injection E as -> ->.
      change (dict_update d ((k, v) :: items))
        with (dict_update (dict_set k v d) items).
      rewrite dict_get_update_other by assumption.
      apply dict_get_set_same.
    + change (dict_update d ((k0, v0) :: items))
        with (dict_update (dict_set k0 v0 d) items).
      now apply IH.
Qed.

Lemma dict_mem_In k d : dict_mem k d = true <-> In k (keys d).
Proof.
  unfold dict_mem. induction d as [|[k' v'] d IH]; simpl.
  - split; [discriminate | tauto].
  - destruct (String.eqb_spec k k') as [->|N].
    + split; auto.
    + rewrite IH. split; [auto | intros [E|I]; congruence].
Qed.

Lemma keys_dict_set_mem k v d :
  dict_mem k d = true -> keys (dict_set k v d) = keys d.
Proof.
  unfold dict_mem. induction d as [|[k' v'] d IH]; simpl.
  - discriminate.
  - destruct (String.eqb_spec k k') as [->|N]; simpl.
    + reflexivity.
    + intros H. now rewrite IH.
Qed.

Lemma keys_dict_set_new k v d :
  dict_mem k d = false -> keys (dict_set k v d) = (keys d ++ [k])%list.
Proof.
  unfold dict_mem. induction d as [|[k' v'] d IH]; simpl.
  - reflexivity.
  - destruct (String.eqb_spec k k') as [->|N]; simpl.
    + discriminate.
    + intros H. now rewrite IH.
Qed.

(** Assignment keeps the keys of a dictionary distinct. *)
Lemma NoDup_keys_dict_set k v d :
  NoDup (keys d) -> NoDup (keys (dict_set k v d)).
Proof.
  intros ND. destruct (dict_mem k d) eqn:M.
  - now rewrite keys_dict_set_mem.
  - rewrite keys_dict_set_new by assumption.
    apply NoDup_app; [assumption | repeat constructor; auto |].
    intros x Hx [<-|[]].
    apply dict_mem_In in Hx. congruence.
Qed.

End DictFacts.

(** ** The writer monad *)

Lemma bind_ret_l {A B} (a : A) (k : A -> Logged B) : bind (ret a) k = k a.
Proof. unfold bind, ret. now destruct (k a). Qed.

Lemma value_bind {A B} (m : Logged A) (k : A -> Logged B) :
  value (bind m k) = value (k (value m)).
Proof. destruct m as [a l]. unfold bind, value. simpl. now destruct (k a). Qed.

Lemma records_bind {A B} (m : Logged A) (k : A -> Logged B) :
  records (bind m k) = (records m ++ records (k (value m)))%list.
Proof. destruct m as [a l]. unfold bind, records. simpl. now destruct (k a). Qed.

Lemma value_collect_map {A B} (f : A -> Logged B) (l : list A) :
  value (collect (map f l)) = map (fun x => value (f x)) l.
Proof.
  induction l as [|x l IH]; simpl.
  - reflexivity.
  - now rewrite !value_bind, IH.
Qed.

(** ** Searching for one character *)

Lemma prefix_nil (s : string) : String.prefix EmptyString s = true.
Proof. now destruct s. Qed.

Lemma contains_char_cons (c x : ascii) (s : string) :
  PyStr.contains (String c EmptyString) (String x s)
  = Ascii.eqb c x || PyStr.contains (String c EmptyString) s.
Proof.
  simpl. destruct (ascii_dec c x) as [->|N].
  - now rewrite prefix_nil, Ascii.eqb_refl.
  - apply Ascii.eqb_neq in N. now rewrite N.
Qed.

Lemma contains_char_append (c : ascii) (a b : string) :
  PyStr.contains (String c EmptyString) (a ++ b)
  = PyStr.contains (String c EmptyString) a
    || PyStr.contains (String c EmptyString) b.
Proof.
  induction a as [|x a IH].
  - reflexivity.
  - change (String x a ++ b) with (String x (a ++ b)).
    now rewrite !contains_char_cons, IH, orb_assoc.
Qed.

Lemma contains_char_join_empty (c : ascii) (parts : list string) :
  (forall p, In p parts -> PyStr.contains (String c EmptyString) p = false) ->
  PyStr.contains (String c EmptyString) (PyStr.join EmptyString parts) = false.
Proof.
  induction parts as [|p parts IH]; intros H.
  - reflexivity.
  - rewrite join_empty_cons, contains_char_append.
    rewrite H by now left. apply IH. intros q Hq. apply H. now right.
Qed.

(** ** The tag tables *)

(** No void tag is a no-indent tag. *)
Lemma void_not_no_indent (type : string) :
  mem type VOID_ELEMENTS = true -> mem type NO_INDENT_ELEMENTS = false.
Proof.
  intros H. unfold mem, NO_INDENT_ELEMENTS. simpl.
  destruct (String.eqb_spec type "pre") as [->|N]; [|reflexivity].
  vm_compute in H. discriminate.
Qed.

(** ** [render_tag] and [render] *)

Lemma value_render_tag type attrs classes contents indent inline :
  value (render_tag type attrs classes contents indent inline)
  = let no_indent := mem type NO_INDENT_ELEMENTS in
    let indent := if no_indent then EmptyString else indent in
    let inline := if no_indent then true else inline in
    let rendered_attrs := render_attributes attrs classes in
    match contents with
    | None => indent ++ "<" ++ type ++ rendered_attrs ++ "/>"
    | Some contents =>
        if inline
        then indent ++ ("<" ++ type ++ rendered_attrs ++ ">")
             ++ contents ++ "</" ++ type ++ ">"
        else indent ++ ("<" ++ type ++ rendered_attrs ++ ">") ++ NL
             ++ contents ++ NL ++ indent ++ "</" ++ type ++ ">"
    end.
Proof.
  unfold render_tag. rewrite value_bind.
  destruct (mem type NO_INDENT_ELEMENTS), contents, inline; reflexivity.
Qed.

Lemma records_render_tag type attrs classes contents indent inline :
  records (render_tag type attrs classes contents indent inline)
  = if mem type ALL_ELEMENTS then [] else [UnknownTagWarning type].
Proof.
  unfold render_tag. rewrite records_bind.
  destruct (mem type ALL_ELEMENTS), (mem type NO_INDENT_ELEMENTS),
    contents, inline; reflexivity.
Qed.

(** Without contents the inline flag plays no part. *)
Lemma render_tag_None_inline type attrs classes indent inline inline' :
  render_tag type attrs classes None indent inline
  = render_tag type attrs classes None indent inline'.
Proof.
  unfold render_tag. destruct (mem type NO_INDENT_ELEMENTS); reflexivity.
Qed.

(** [Element.render], one step unfolded. *)
Lemma render_Element type attributes children classes indent inline :
  render (Element type attributes children classes) indent inline
  = let inline := existsb must_be_inline children in
    contents <-
      (if mem type VOID_ELEMENTS then ret None
       else if inline then
         parts <- collect (map (fun c => render c EmptyString true) children) ;;
         ret (Some (PyStr.join EmptyString parts))
       else
         parts <- collect
                    (map (fun c => render c (indent ++ "  ") false) children) ;;
         ret (Some (PyStr.join NL parts))) ;;
    render_tag type attributes classes contents indent inline.
Proof. reflexivity. Qed.

Lemma render_void type attributes children classes indent inline :
  mem type VOID_ELEMENTS = true ->
  render (Element type attributes children classes) indent inline
  = render_tag type attributes classes None indent false.
Proof.
  intros V. rewrite render_Element. cbv zeta. rewrite V, bind_ret_l.
  apply render_tag_None_inline.
Qed.

Lemma containing_batches type attributes classes batches :
  forall children,
    fold_left containing batches (Element type attributes children classes)
    = Element type attributes
        (children ++ map wrap (List.concat batches))%list classes.
Proof.
  induction batches as [|b batches IH]; intros children; simpl.
  - now rewrite app_nil_r.
  - now rewrite IH, map_app, app_assoc.
Qed.

Lemma fold_append_attribute (attrs : Attributes) :
  forall rendered_attrs,
    PyStr.join EmptyString
      (map (fun r => " " ++ r) (fold_left append_attribute attrs rendered_attrs))
    = PyStr.join EmptyString (map (fun r => " " ++ r) rendered_attrs)
      ++ PyStr.join EmptyString (map attribute_text attrs).
Proof.
  induction attrs as [|[name value] attrs IH]; intros acc.
  - simpl. now rewrite append_nil_r.
  - change (map attribute_text ((name, value) :: attrs))
      with (attribute_text (name, value) :: map attribute_text attrs).
    rewrite join_empty_cons. simpl fold_left. rewrite IH.
    destruct value as [v|[|]|]; simpl append_attribute; try reflexivity;
      unfold list_append; rewrite map_app, join_empty_app, append_assoc;
      f_equal; f_equal; unfold attribute_text; simpl;
      now rewrite append_nil_r.
Qed.

(** * The claims *)

(** C1. An element whose tag is a void tag renders as the indent followed
    by the self-closing tag with its attributes.  The result ends with [/>],
    nothing of the children is part of it, and it is the result of the same
    element without children, however many children [containing] appended
    and whatever the indent and the inline flag are. *)
Theorem void_element_ignores_children
  (type : string) (attributes : Attributes) (children : list HtmlRenderable)
  (classes : list string) (batches : list (list Contents))
  (indent : string) (inline : bool) :
  mem type VOID_ELEMENTS = true ->
  let e :=
    fold_left containing batches (Element type attributes children classes) in
  value (render e indent inline)
  = indent ++ "<" ++ type ++ render_attributes attributes classes ++ "/>"
  /\ PyStr.endswith (value (render e indent inline)) "/>" = true
  /\ render e indent inline
     = render (Element type attributes [] classes) indent inline.
Proof.
  intros V e. subst e. rewrite containing_batches.
  rewrite !render_void by assumption.
  assert (E : value (render_tag type attributes classes None indent false)
              = indent ++ "<" ++ type
                ++ render_attributes attributes classes ++ "/>").
  { rewrite value_render_tag. cbv zeta.
    now rewrite (void_not_no_indent _ V). }
  repeat split.
  - exact E.
  - rewrite E.
    replace (indent ++ "<" ++ type
             ++ render_attributes attributes classes ++ "/>")
      with ((indent ++ "<" ++ type
             ++ render_attributes attributes classes) ++ "/>")
      by now rewrite !append_assoc.
    apply endswith_append.
Qed.

Lemma void_element_ignores_children_witness :
  mem "br" VOID_ELEMENTS = true
  /\ value (render
              (fold_left containing [[CStr "x"]; [CNode (HtmlStr "y")]]
                 (Element "br" [("id", AStr "b")] [] []))
              "  " false)
     = "  <br id=" ++ DQ ++ "b" ++ DQ ++ "/>".
Proof.
  split; [reflexivity|].
  apply (void_element_ignores_children "br" [("id", AStr "b")] [] []
           [[CStr "x"]; [CNode (HtmlStr "y")]] "  " false).
  reflexivity.
Defined.

(** C2. [render_attributes] emits the class attribute first when there are
    classes, then the text of each attribute in the order of the dictionary:
    a space and the bare name for the value true, nothing for false and for
    None, and for a string a space, the name, the equals sign and the
    escaped value between double quotes. *)
Theorem render_attributes_text :
  (forall (attrs : Attributes) (classes : list string),
      render_attributes attrs classes
      = class_text classes
        ++ PyStr.join EmptyString (map attribute_text attrs))
  /\ (forall name, attribute_text (name, ABool true) = " " ++ name)
  /\ (forall name, attribute_text (name, ABool false) = EmptyString)
  /\ (forall name, attribute_text (name, ANone) = EmptyString)
  /\ (forall name v,
         attribute_text (name, AStr v)
         = " " ++ name ++ "=" ++ DQ ++ html.escape v ++ DQ)
  /\ class_text [] = EmptyString
  /\ (forall c classes,
         class_text (c :: classes)
         = " class=" ++ DQ
           ++ PyStr.join " " (map html.escape (c :: classes)) ++ DQ).
Proof.
  repeat split.
  intros attrs classes. unfold render_attributes.
  rewrite fold_append_attribute. f_equal.
  destruct classes as [|c classes]; [reflexivity|].
  unfold list_append, class_text. simpl map at 1.
  rewrite join_empty_cons. simpl. now rewrite append_nil_r.
Qed.

(** C5, as amended.  [must_be_inline] is true of every text node; of a
    sequence it is true exactly when it is true of one of its children; of
    an element it is false, whatever its children are. *)
Theorem must_be_inline_by_kind (self : HtmlRenderable) :
  match self with
  | HtmlStr _ => must_be_inline self = true
  | HtmlSequence children =>
      must_be_inline self = true
      <-> exists c, In c children /\ must_be_inline c = true
  | Element _ _ _ _ => must_be_inline self = false
  end.
Proof.
  destruct self as [type attributes children classes | children | s].
  - reflexivity.
  - simpl. apply existsb_exists.
  - reflexivity.
Qed.

(** C5, as stated, fails on an element: the paragraph that contains the
    text [bar] has a child that must be inline and yet [must_be_inline] is
    false of it. *)
Lemma must_be_inline_element_counterexample :
  let e := containing (Element "p" [] [] []) [CStr "bar"] in
  ~ (must_be_inline e = true
     <-> exists c, In c (children_of e) /\ must_be_inline c = true).
Proof.
  intros e [_ H].
  assert (E : must_be_inline e = true).
  { apply H. exists (HtmlStr "bar"). split; [now left | reflexivity]. }
  discriminate E.
Qed.

(** C9. [HtmlStr.escape] replaces each character by its entity: the
    ampersand, the two angle brackets and the double quote (and the
    apostrophe) by theirs, any other character by itself.  Escaping twice is
    not escaping once: the ampersand of an entity is escaped again. *)
Theorem HtmlStr_escape_entities :
  (forall s,
      HtmlStr_escape s
      = HtmlStr (PyStr.join EmptyString
                   (map escape_char (list_ascii_of_string s))))
  /\ escape_char "&" = "&amp;"
  /\ escape_char "<" = "&lt;"
  /\ escape_char ">" = "&gt;"
  /\ escape_char DQUOTE = "&quot;"
  /\ escape_char "'" = "&#x27;"
  /\ (forall c,
         c <> "&"%char -> c <> "<"%char -> c <> ">"%char ->
         c <> DQUOTE -> c <> "'"%char ->
         escape_char c = String c EmptyString)
  /\ exists s,
       match HtmlStr_escape s with
       | HtmlStr once => HtmlStr_escape once <> HtmlStr_escape s
       | _ => False
       end.
Proof.
  repeat split.
  - intros s. unfold HtmlStr_escape. f_equal.
    induction s as [|c s IH].
    + reflexivity.
    + simpl list_ascii_of_string. simpl map.
      now rewrite join_empty_cons, escape_String, IH.
  - intros c H1 H2 H3 H4 H5. unfold escape_char.
    apply Ascii.eqb_neq in H1, H2, H3, H4, H5.
    now rewrite H1, H2, H3, H4, H5.
  - exists "&". simpl. discriminate.
Qed.

Lemma HtmlStr_escape_entities_witness :
  ("a"%char <> "&"%char /\ "a"%char <> "<"%char /\ "a"%char <> ">"%char
   /\ "a"%char <> DQUOTE /\ "a"%char <> "'"%char)
  /\ escape_char "a" = "a".
Proof.
  assert (N : forall c, Ascii.eqb "a" c = false -> "a"%char <> c)
    by (intros c; apply Ascii.eqb_neq).
  split.
  - repeat split; apply N; reflexivity.
  - apply (proj1 (proj2 (proj2 (proj2 (proj2 (proj2
             (proj2 HtmlStr_escape_entities)))))) "a"%char);
      apply N; reflexivity.
Defined.

(** C10. [Element.render] does not depend on the inline flag it is given:
    the result, log included, is the same for true and for false, and it is
    the result for the flag computed from the children, which is true when
    one of them must be inline. *)
Theorem element_render_ignores_inline
  (type : string) (attributes : Attributes) (children : list HtmlRenderable)
  (classes : list string) (indent : string) :
  render (Element type attributes children classes) indent true
  = render (Element type attributes children classes) indent false
  /\ forall inline,
       render (Element type attributes children classes) indent inline
       = render (Element type attributes children classes) indent
           (existsb must_be_inline children).
Proof.
  split.
  - rewrite !render_Element. reflexivity.
  - intros inline. rewrite !render_Element. reflexivity.
Qed.

Lemma text_child_inline (children : list HtmlRenderable) :
  (exists s, In (HtmlStr s) children) ->
  existsb must_be_inline children = true.
Proof.
  intros [s H]. apply existsb_exists. now exists (HtmlStr s).
Qed.

(** C6. An element with a text node among its children is laid out on one
    line, whatever inline flag is given: the indent (none for a no-indent
    tag), the opening tag, the children rendered inline one after the other
    and the closing tag, or the self-closing tag alone for a void tag.  The
    layout adds no newline: when the indent, the tag, the attributes and the
    inline renderings of the children have none, the result has none.  The
    paragraph that contains [bar], rendered with an empty indent and the
    inline flag false, is [<p>bar</p>]. *)
Theorem text_child_renders_on_one_line :
  (forall type attributes children classes indent inline,
      (exists s, In (HtmlStr s) children) ->
      value (render (Element type attributes children classes) indent inline)
      = (if mem type NO_INDENT_ELEMENTS then EmptyString else indent)
        ++ "<" ++ type ++ render_attributes attributes classes
        ++ (if mem type VOID_ELEMENTS then "/>"
            else ">"
                 ++ PyStr.join EmptyString
                      (map (fun c => value (render c EmptyString true))
                         children)
                 ++ "</" ++ type ++ ">"))
  /\ (forall type attributes children classes indent inline,
         (exists s, In (HtmlStr s) children) ->
         PyStr.contains NL indent = false ->
         PyStr.contains NL type = false ->
         PyStr.contains NL (render_attributes attributes classes) = false ->
         (forall c, In c children ->
                    PyStr.contains NL (value (render c EmptyString true))
                    = false) ->
         PyStr.contains NL
           (value (render (Element type attributes children classes)
                     indent inline))
         = false)
  /\ value (render (containing (Element "p" [] [] []) [CStr "bar"])
              EmptyString false)
     = "<p>bar</p>".
Proof.
  assert (shape : forall type attributes children classes indent inline,
      (exists s, In (HtmlStr s) children) ->
      value (render (Element type attributes children classes) indent inline)
      = (if mem type NO_INDENT_ELEMENTS then EmptyString else indent)
        ++ "<" ++ type ++ render_attributes attributes classes
        ++ (if mem type VOID_ELEMENTS then "/>"
            else ">"
                 ++ PyStr.join EmptyString
                      (map (fun c => value (render c EmptyString true))
                         children)
                 ++ "</" ++ type ++ ">")).
  { intros type attributes children classes indent inline T.
    rewrite render_Element. cbv zeta.
    rewrite (text_child_inline _ T), value_bind, value_render_tag. cbv zeta.
    destruct (mem type VOID_ELEMENTS) eqn:V.
    - rewrite (void_not_no_indent _ V). reflexivity.
    - rewrite value_bind, value_collect_map. unfold ret, value at 1. simpl fst.
      destruct (mem type NO_INDENT_ELEMENTS); simpl;
        now rewrite ?append_assoc. }
  split; [exact shape | split; [|reflexivity]].
  intros type attributes children classes indent inline T Hi Ht Ha Hc.
  rewrite (shape _ _ _ _ _ _ T). unfold NL in *.
  rewrite !contains_char_append, Ht, Ha.
  assert (E : PyStr.contains (String LF EmptyString)
                (if mem type NO_INDENT_ELEMENTS then EmptyString else indent)
              = false) by (destruct (mem type NO_INDENT_ELEMENTS); auto).
  rewrite E. clear E.
  destruct (mem type VOID_ELEMENTS); [reflexivity|].
  rewrite !contains_char_append, Ht, contains_char_join_empty.
  - reflexivity.
  - intros p Hp. apply in_map_iff in Hp as [c [<- Hin]]. now apply Hc.
Qed.

Lemma text_child_renders_on_one_line_witness :
  (exists s, In (HtmlStr s) [HtmlStr "bar"; Element "br" [] [] []])
  /\ value (render (Element "p" [("id", AStr "x")]
                      [HtmlStr "bar"; Element "br" [] [] []] ["c"])
              "    " false)
     = "    <p class=" ++ DQ ++ "c" ++ DQ ++ " id=" ++ DQ ++ "x" ++ DQ
       ++ ">bar<br/></p>".
Proof.
  assert (T : exists s, In (HtmlStr s) [HtmlStr "bar"; Element "br" [] [] []])
    by (exists "bar"; now left).
  split; [exact T|].
  exact (proj1 text_child_renders_on_one_line
           "p" [("id", AStr "x")] [HtmlStr "bar"; Element "br" [] [] []]
           ["c"] "    " false T).
Defined.

(** C7. For a tag of the no-indent set [render_tag] drops the indent and
    lays the tag out inline, whatever indent and inline flag are given: the
    contents stand between the opening and the closing tag as they are.  A
    [pre] tag with the contents of two spaces, 2, newline, space, 1, newline,
    0 renders as these contents between [<pre>] and [</pre>], through
    [render_tag] and through [Element.render] alike. *)
Theorem no_indent_tag_verbatim :
  (forall type attrs classes contents text indent inline,
      mem type NO_INDENT_ELEMENTS = true ->
      render_tag type attrs classes contents indent inline
      = render_tag type attrs classes contents EmptyString true
      /\ value (render_tag type attrs classes (Some text) indent inline)
         = "<" ++ type ++ render_attributes attrs classes ++ ">"
           ++ text ++ "</" ++ type ++ ">")
  /\ (forall indent inline,
         value (render_tag "pre" [] [] (Some ("  2" ++ NL ++ " 1" ++ NL ++ "0"))
                  indent inline)
         = "<pre>  2" ++ NL ++ " 1" ++ NL ++ "0</pre>")
  /\ (forall indent inline,
         value (render
                  (containing (Element "pre" [] [] [])
                     [CStr ("  2" ++ NL ++ " 1" ++ NL ++ "0")])
                  indent inline)
         = "<pre>  2" ++ NL ++ " 1" ++ NL ++ "0</pre>").
Proof.
  split; [|split].
  - intros type attrs classes contents text indent inline N. split.
    + unfold render_tag. now rewrite N.
    + rewrite value_render_tag. cbv zeta. rewrite N. simpl.
      now rewrite !append_assoc.
  - intros indent inline. rewrite value_render_tag. reflexivity.
  - intros indent inline. simpl containing. rewrite render_Element.
    cbv zeta. simpl existsb. simpl mem. rewrite value_bind, value_render_tag.
    reflexivity.
Qed.

Lemma no_indent_tag_verbatim_witness :
  mem "pre" NO_INDENT_ELEMENTS = true
  /\ value (render_tag "pre" [("id", AStr "code")] [] (Some " x") "      " false)
     = "<pre id=" ++ DQ ++ "code" ++ DQ ++ "> x</pre>".
Proof.
  split; [reflexivity|].
  exact (proj2 (proj1 no_indent_tag_verbatim
                  "pre" [("id", AStr "code")] [] None " x" "      " false
                  eq_refl)).
Defined.

(** ** [with_data] *)

Lemma check_data_keys_inr (data : dict string) :
  check_data_keys data = inr tt
  <-> forallb valid_data_key (keys data) = true.
Proof.
  induction data as [|[key v] data IH]; simpl.
  - tauto.
  - rewrite data_key_pattern_valid.
    destruct (valid_data_key key); simpl; [exact IH|].
    split; discriminate.
Qed.

Lemma check_data_keys_inl (data : dict string) :
  (exists e, check_data_keys data = inl e)
  <-> exists key, In key (keys data) /\ valid_data_key key = false.
Proof.
  induction data as [|[key v] data IH]; simpl.
  - split; [intros [e H]; discriminate | intros [k [[] _]]].
  - rewrite data_key_pattern_valid.
    destruct (valid_data_key key) eqn:E; simpl.
    + rewrite IH. split.
      * intros [k [H1 H2]]. exists k. auto.
      * intros [k [[<-|H1] H2]]; [congruence | exists k; auto].
    + split; [intros _; exists key; auto | intros _; eexists; reflexivity].
Qed.

Lemma data_items_keys (data : dict string) :
  keys (map (fun kv : string * string => ("data-" ++ fst kv, AStr (snd kv)))
          data)
  = map (fun key => "data-" ++ key) (keys data).
Proof. unfold keys. rewrite !map_map. reflexivity. Qed.

Lemma NoDup_data_keys (l : list string) :
  NoDup l -> NoDup (map (fun key => "data-" ++ key) l).
Proof.
  induction 1 as [|k l N ND IH]; simpl; constructor; [|exact IH].
  intros H. apply in_map_iff in H as [k' [E H]].
  simpl in E. injection E as ->. contradiction.
Qed.

(** C8. [with_data] raises [ValueError] exactly when one of the keys is not
    made of lowercase letters and hyphens only, starting with a letter.  When
    every key is valid the element comes back with, for each entry, the
    attribute [data-key] set to the value of the entry, its other attributes
    as they were.  The key [foo-bar] is accepted and sets [data-foo-bar];
    the key [Foo] is refused. *)
Theorem with_data_validates :
  (forall type attributes children classes (data : dict string),
      let self := Element type attributes children classes in
      ((exists e, with_data self data = inl e)
       <-> exists key, In key (keys data) /\ valid_data_key key = false)
      /\ (forallb valid_data_key (keys data) = true ->
          NoDup (keys data) ->
          exists attributes',
            with_data self data
            = inr (Element type attributes' children classes)
            /\ (forall key v,
                   In (key, v) data ->
                   dict_get ("data-" ++ key) attributes' = Some (AStr v))
            /\ (forall name,
                   (forall key, In key (keys data) -> name <> "data-" ++ key) ->
                   dict_get name attributes' = dict_get name attributes)))
  /\ with_data (Element "div" [] [] []) [("foo-bar", "x")]
     = inr (Element "div" [("data-foo-bar", AStr "x")] [] [])
  /\ with_data (Element "div" [] [] []) [("Foo", "x")]
     = inl (ValueError "Foo").
Proof.
  split; [|split; reflexivity].
  intros type attributes children classes data self. subst self. split.
  - rewrite <- check_data_keys_inl. unfold with_data.
    destruct (check_data_keys data) as [e|u].
    + split; intros _; exists e; reflexivity.
    + split; intros [e H]; discriminate.
  - intros V ND. apply check_data_keys_inr in V. unfold with_data. rewrite V.
    eexists. split; [reflexivity|]. split.
    + intros key v I. apply dict_get_update_in.
      * rewrite data_items_keys. now apply NoDup_data_keys.
      * apply in_map_iff. exists (key, v). auto.
    + intros name H. apply dict_get_update_other.
      rewrite data_items_keys. intros I.
      apply in_map_iff in I as [key [E I]]. apply (H key I). now rewrite E.
Qed.

Lemma with_data_validates_witness :
  forallb valid_data_key (keys [("foo-bar", "x"); ("id", "7")]) = true
  /\ NoDup (keys [("foo-bar", "x"); ("id", "7")])
  /\ exists attributes',
       with_data (Element "div" [("data-id", AStr "1")] [] [])
         [("foo-bar", "x"); ("id", "7")]
       = inr (Element "div" attributes' [] [])
       /\ dict_get "data-foo-bar" attributes' = Some (AStr "x")
       /\ dict_get "data-id" attributes' = Some (AStr "7").
Proof.
  assert (V : forallb valid_data_key (keys [("foo-bar", "x"); ("id", "7")])
              = true) by reflexivity.
  assert (ND : NoDup (keys [("foo-bar", "x"); ("id", "7")])).
  { repeat constructor; simpl; intuition discriminate. }
  split; [exact V | split; [exact ND|]].
  destruct (proj2 (proj1 with_data_validates
                     "div" [("data-id", AStr "1")] [] []
                     [("foo-bar", "x"); ("id", "7")]) V ND)
    as [attributes' [E [H _]]].
  exists attributes'. split; [exact E|]. split.
  - apply (H "foo-bar" "x"). now left.
  - apply (H "id" "7"). right. now left.
Defined.

(** ** The registry *)

(** The classes of a registry stay distinct through [style]. *)
Lemma style_keeps_keys_distinct {A} (self : Registry) (css : option string)
  (func : ElementFunc A) :
  NoDup (keys (styles self)) ->
  NoDup (keys (styles (fst (value (style self css func))))).
Proof.
  intros ND. unfold style. rewrite value_bind.
  destruct css as [css|]; simpl; [|exact ND].
  now apply NoDup_keys_dict_set.
Qed.

(** C3. The stylesheet of the registry in which [demo_box] is registered
    with the rule [& > h2 { font-size: 1.5em; }] is the block of the class
    [demo-box] around the indented rule, and the ampersand of the rule is
    still there: the text [.demo-box > h2 { font-size: 1.5em; }] is no part
    of it.  The stylesheet of the older registry is that text. *)
Theorem render_stylesheet_keeps_ampersand :
  let css := "& > h2 { font-size: 1.5em; }" in
  let demo_box :=
    {| __name__ := "demo_box";
       call := fun _ : unit => ret (Element "div" [] [] []) |} in
  let r := fst (value (style Registry_init (Some css) demo_box)) in
  styles r = [("demo-box", css)]
  /\ render_stylesheet r
     = ".demo-box {" ++ NL ++ "  & > h2 { font-size: 1.5em; }" ++ NL ++ "}"
  /\ PyStr.contains ".demo-box > h2 { font-size: 1.5em; }"
       (render_stylesheet r) = false
  /\ Legacy.stylesheet (styles r) = ".demo-box > h2 { font-size: 1.5em; }".
Proof. vm_compute. repeat split. Qed.

(** C4, as amended.  When [style] is called for a function whose class is
    already in the registry, it logs the duplicate warning and nothing else;
    a CSS body given with the call replaces the stored one, and without one
    the stored body stays; the classes of the registry and their order are
    as before, the class of the call is among them once, and the bodies of
    the other classes are untouched. *)
Theorem style_duplicate_last_wins {A} (self : Registry) (css : option string)
  (func : ElementFunc A) :
  let classname := classname_of (__name__ func) in
  dict_mem classname (styles self) = true ->
  NoDup (keys (styles self)) ->
  let self' := fst (value (style self css func)) in
  records (style self css func) = [DuplicateClassnameWarning classname]
  /\ dict_get classname (styles self')
     = match css with
       | Some css => Some (PyStr.strip (textwrap.dedent css))
       | None => dict_get classname (styles self)
       end
  /\ keys (styles self') = keys (styles self)
  /\ count_occ string_dec (keys (styles self')) classname = 1
  /\ (forall other,
         other <> classname ->
         dict_get other (styles self') = dict_get other (styles self)).
Proof.
  intros classname M ND self'.
  assert (K : keys (styles self') = keys (styles self)).
  { subst self'. unfold style. rewrite value_bind.
    destruct css as [css|]; simpl; [|reflexivity].
    now apply keys_dict_set_mem. }
  split; [|split; [|split; [exact K | split]]].
  - unfold style. rewrite records_bind. fold classname. rewrite M.
    reflexivity.
  - subst self'. unfold style. rewrite value_bind.
    destruct css as [css|]; simpl; [|reflexivity].
    apply dict_get_set_same.
  - rewrite K. apply NoDup_count_occ'; [exact ND|].
    now apply dict_mem_In.
  - intros other N. subst self'. unfold style. rewrite value_bind.
    destruct css as [css|]; simpl; [|reflexivity].
    now apply dict_get_set_other.
Qed.

Lemma style_duplicate_last_wins_witness :
  let demo_box' :=
    {| __name__ := "demo-box";
       call := fun _ : unit => ret (Element "div" [] [] []) |} in
  let r1 := {| styles := [("page-title", "font-size: 1em;");
                          ("demo-box", "color: red;")] |} in
  let r2 := fst (value (style r1 (Some "  color: blue;  ") demo_box')) in
  dict_mem "demo-box" (styles r1) = true
  /\ NoDup (keys (styles r1))
  /\ records (style r1 (Some "  color: blue;  ") demo_box')
     = [DuplicateClassnameWarning "demo-box"]
  /\ dict_get "demo-box" (styles r2) = Some "color: blue;"
  /\ keys (styles r2) = ["page-title"; "demo-box"].
Proof.
  cbv zeta.
  assert (ND : NoDup (keys [("page-title", "font-size: 1em;");
                            ("demo-box", "color: red;")])).
  { repeat constructor; simpl; intuition discriminate. }
  split; [reflexivity | split; [exact ND|]].
  pose proof (style_duplicate_last_wins
                {| styles := [("page-title", "font-size: 1em;");
                              ("demo-box", "color: red;")] |}
                (Some "  color: blue;  ")
                {| __name__ := "demo-box";
                   call := fun _ : unit => ret (Element "div" [] [] []) |}
                eq_refl ND) as [H1 [H2 [H3 _]]].
  split; [exact H1 | split; [exact H2 | exact H3]].
Defined.

(** C4, as stated, fails: after [demo_box] is registered with one body and
    a function of the same class with another, the warning is logged and the
    body stored for the class is the second one, not the first. *)
Lemma style_first_wins_counterexample :
  let demo_box :=
    {| __name__ := "demo_box";
       call := fun _ : unit => ret (Element "div" [] [] []) |} in
  let demo_box' :=
    {| __name__ := "demo-box";
       call := fun _ : unit => ret (Element "div" [] [] []) |} in
  let r1 := fst (value (style Registry_init (Some "color: red;") demo_box)) in
  let r2 := fst (value (style r1 (Some "color: blue;") demo_box')) in
  classname_of (__name__ demo_box) = classname_of (__name__ demo_box')
  /\ dict_get "demo-box" (styles r1) = Some "color: red;"
  /\ records (style r1 (Some "color: blue;") demo_box')
     = [DuplicateClassnameWarning "demo-box"]
  /\ dict_get "demo-box" (styles r2) = Some "color: blue;"
  /\ dict_get "demo-box" (styles r2) <> dict_get "demo-box" (styles r1)
  /\ render_stylesheet r2 = ".demo-box {" ++ NL ++ "  color: blue;" ++ NL ++ "}".
Proof.
  cbv zeta. repeat split. vm_compute. discriminate.
Qed.

(** * Further properties of the code *)

(** ** Induction on a tree of nodes *)

Section TreeInduction.
Variable P : HtmlRenderable -> Prop.
Hypothesis P_Element :
  forall type attributes children classes,
    Forall P children -> P (Element type attributes children classes).
Hypothesis P_HtmlSequence :
  forall children, Forall P children -> P (HtmlSequence children).
Hypothesis P_HtmlStr : forall s, P (HtmlStr s).

Fixpoint HtmlRenderable_tree_ind (self : HtmlRenderable) : P self :=
  let fix all (l : list HtmlRenderable) : Forall P l :=
    match l with
    | [] => Forall_nil P
    | c :: l' => Forall_cons c (HtmlRenderable_tree_ind c) (all l')
    end in
  match self with
  | Element type attributes children classes =>
      P_Element type attributes children classes (all children)
  | HtmlSequence children => P_HtmlSequence children (all children)
  | HtmlStr s => P_HtmlStr s
  end.

End TreeInduction.

(** ** Joining and collecting *)

Lemma join_cons (sep x : string) (l : list string) :
  l <> [] -> PyStr.join sep (x :: l) = x ++ sep ++ PyStr.join sep l.
Proof. destruct l; [congruence | reflexivity]. Qed.

Lemma join_app (sep : string) (l1 l2 : list string) :
  l1 <> [] -> l2 <> [] ->
  PyStr.join sep (l1 ++ l2)%list
  = PyStr.join sep l1 ++ sep ++ PyStr.join sep l2.
Proof.
  intros N1 N2. induction l1 as [|x l1 IH]; [congruence|].
  destruct l1 as [|y l1].
  - simpl app. now rewrite join_cons.
  - change ((x :: y :: l1) ++ l2)%list with (x :: ((y :: l1) ++ l2))%list.
    rewrite join_cons by discriminate.
    rewrite IH by discriminate.
    rewrite (join_cons sep x (y :: l1)) by discriminate.
    now rewrite !append_assoc.
Qed.

(** A joined list that stands among the parts counts as its parts, when it
    has any. *)
Lemma join_splice (sep : string) (l1 l2 l3 : list string) :
  l2 <> [] ->
  PyStr.join sep (l1 ++ PyStr.join sep l2 :: l3)%list
  = PyStr.join sep (l1 ++ l2 ++ l3)%list.
Proof.
  intros N. induction l1 as [|x l1 IH].
  - simpl app. destruct l3 as [|z l3].
    + now rewrite app_nil_r.
    + rewrite join_cons by discriminate.
      now rewrite join_app by (assumption || discriminate).
  - change ((x :: l1) ++ PyStr.join sep l2 :: l3)%list
      with (x :: (l1 ++ PyStr.join sep l2 :: l3))%list.
    change ((x :: l1) ++ l2 ++ l3)%list with (x :: (l1 ++ l2 ++ l3))%list.
    rewrite !join_cons, IH; [reflexivity | |].
    + destruct l1, l2; simpl; congruence.
    + destruct l1; discriminate.
Qed.

Lemma records_collect_map {A B} (f : A -> Logged B) (l : list A) :
  records (collect (map f l)) = flat_map (fun x => records (f x)) l.
Proof.
  induction l as [|x l IH]; simpl.
  - reflexivity.
  - rewrite !records_bind, IH. simpl. now rewrite app_nil_r.
Qed.

Lemma value_ret {A} (a : A) : value (ret a) = a.
Proof. reflexivity. Qed.

Lemma Logged_eq {A} (m1 m2 : Logged A) :
  value m1 = value m2 -> records m1 = records m2 -> m1 = m2.
Proof. destruct m1, m2. simpl. now intros -> ->. Qed.

Lemma flat_map_Forall {A B} (f g : A -> list B) (l : list A) :
  Forall (fun x => f x = g x) l -> flat_map f l = flat_map g l.
Proof. induction 1 as [|x l E _ IH]; simpl; [reflexivity | now rewrite E, IH]. Qed.

(** ** The log of a rendering *)

Lemma render_log_Element type attributes children classes :
  render_log (Element type attributes children classes)
  = ((if mem type VOID_ELEMENTS then [] else flat_map render_log children)
     ++ (if mem type ALL_ELEMENTS then [] else [UnknownTagWarning type]))%list.
Proof. reflexivity. Qed.

Lemma tags_known_Element type attributes children classes :
  tags_known (Element type attributes children classes)
  = mem type ALL_ELEMENTS && forallb tags_known children.
Proof. reflexivity. Qed.

Lemma flat_map_render_log_known (children : list HtmlRenderable) :
  Forall (fun c => tags_known c = true -> render_log c = []) children ->
  forallb tags_known children = true ->
  flat_map render_log children = [].
Proof.
  induction 1 as [|c cs H _ IH]; simpl; intros K; [reflexivity|].
  apply andb_true_iff in K as [K1 K2]. now rewrite H, IH.
Qed.

Lemma records_render (self : HtmlRenderable) :
  forall indent inline, records (render self indent inline) = render_log self.
Proof.
  induction self as [type attributes children classes IH | children IH | s]
    using HtmlRenderable_tree_ind; intros indent inline.
  - rewrite render_Element. cbv zeta. rewrite records_bind, records_render_tag.
    rewrite render_log_Element. f_equal.
    destruct (mem type VOID_ELEMENTS); [reflexivity|].
    destruct (existsb must_be_inline children);
      rewrite records_bind, records_collect_map; simpl; rewrite app_nil_r;
      apply flat_map_Forall; eapply Forall_impl; [|exact IH| |exact IH];
      intros c H; apply H.
  - simpl render. destruct inline;
      rewrite records_bind, records_collect_map; simpl; rewrite app_nil_r;
      apply flat_map_Forall; eapply Forall_impl; [|exact IH| |exact IH];
      intros c H; apply H.
  - reflexivity.
Qed.

Lemma render_log_known (self : HtmlRenderable) :
  tags_known self = true -> render_log self = [].
Proof.
  induction self as [type attributes children classes IH | children IH | s]
    using HtmlRenderable_tree_ind; intros K.
  - rewrite tags_known_Element in K. apply andb_true_iff in K as [K1 K2].
    rewrite render_log_Element, K1, app_nil_r.
    destruct (mem type VOID_ELEMENTS); [reflexivity|].
    now apply flat_map_render_log_known.
  - simpl in *. now apply flat_map_render_log_known.
  - reflexivity.
Qed.

(** X1. Whatever indent and inline flag a node is rendered with, the
    warnings logged are the same: one for each element whose tag is not in
    [ALL_ELEMENTS], the children before their parent and nothing from below
    a void element.  A tree whose elements all have known tags is rendered
    without a warning. *)
Theorem render_logs_unknown_tags :
  (forall self indent inline,
      records (render self indent inline) = render_log self)
  /\ (forall self indent inline indent' inline',
         records (render self indent inline)
         = records (render self indent' inline'))
  /\ (forall self indent inline,
         tags_known self = true -> records (render self indent inline) = []).
Proof.
  split; [|split].
  - intros. apply records_render.
  - intros. now rewrite !records_render.
  - intros self indent inline K. rewrite records_render.
    now apply render_log_known.
Qed.

Lemma render_logs_unknown_tags_witness :
  tags_known
    (Element "div" [] [Element "p" [] [HtmlStr "x"] []; Element "br" [] [] []]
       [])
  = true
  /\ records
       (render
          (Element "div" []
             [Element "p" [] [HtmlStr "x"] []; Element "br" [] [] []] [])
          "  " false)
     = [].
Proof.
  split; [reflexivity|].
  apply (proj2 (proj2 render_logs_unknown_tags)). reflexivity.
Defined.

(** ** The block layout *)

(** X2. An element that is not void and none of whose children must be
    inline is laid out as a block, whatever inline flag is given: every
    child is rendered with the indent of the element and two spaces more,
    the renderings are joined by newlines and stand on lines of their own
    between the opening tag and the closing tag, each at the indent of the
    element; with no child an empty line stands between the tags.  For a
    no-indent tag the children are rendered in the same way, but the tags
    are put around them without indent and without the two newlines. *)
Theorem element_block_layout
  (type : string) (attributes : Attributes) (children : list HtmlRenderable)
  (classes : list string) (indent : string) (inline : bool) :
  mem type VOID_ELEMENTS = false ->
  existsb must_be_inline children = false ->
  let lines :=
    PyStr.join NL
      (map (fun c => value (render c (indent ++ "  ") false)) children) in
  let open_tag := "<" ++ type ++ render_attributes attributes classes ++ ">" in
  let close_tag := "</" ++ type ++ ">" in
  value (render (Element type attributes children classes) indent inline)
  = if mem type NO_INDENT_ELEMENTS
    then open_tag ++ lines ++ close_tag
    else indent ++ open_tag ++ NL ++ lines ++ NL ++ indent ++ close_tag.
Proof.
  intros V I lines open_tag close_tag. subst lines open_tag close_tag.
  rewrite render_Element. cbv zeta.
  rewrite V, I, !value_bind, value_render_tag, value_collect_map. cbv zeta.
  unfold ret, value at 1. simpl fst.
  destruct (mem type NO_INDENT_ELEMENTS); simpl; now rewrite ?append_assoc.
Qed.

Lemma element_block_layout_witness :
  mem "div" VOID_ELEMENTS = false
  /\ existsb must_be_inline
       [Element "p" [] [HtmlStr "foo"] []; Element "p" [] [HtmlStr "bar"] []]
     = false
  /\ value (render
              (Element "div" []
                 [Element "p" [] [HtmlStr "foo"] [];
                  Element "p" [] [HtmlStr "bar"] []] [])
              EmptyString false)
     = "<div>" ++ NL ++ "  <p>foo</p>" ++ NL ++ "  <p>bar</p>" ++ NL
       ++ "</div>".
Proof.
  split; [reflexivity | split; [reflexivity|]].
  exact (element_block_layout "div" []
           [Element "p" [] [HtmlStr "foo"] []; Element "p" [] [HtmlStr "bar"] []]
           [] EmptyString false eq_refl eq_refl).
Defined.

(** ** Sequences among children *)

Lemma existsb_splice (children pre post : list HtmlRenderable) :
  existsb must_be_inline (pre ++ HtmlSequence children :: post)
  = existsb must_be_inline (pre ++ children ++ post).
Proof.
  rewrite !existsb_app. reflexivity.
Qed.

(** Rendering the children and joining the parts, with a sequence among the
    children or with the children of the sequence in its place. *)
Lemma collect_join_splice {X} (f : HtmlRenderable -> Logged string)
  (sep : string) (g : string -> X) (children pre post : list HtmlRenderable) :
  children <> [] ->
  f (HtmlSequence children)
  = (parts <- collect (map f children) ;; ret (PyStr.join sep parts)) ->
  (parts <- collect (map f (pre ++ HtmlSequence children :: post)) ;;
   ret (g (PyStr.join sep parts)))
  = (parts <- collect (map f (pre ++ children ++ post)) ;;
     ret (g (PyStr.join sep parts))).
Proof.
  intros N E. apply Logged_eq.
  - rewrite !value_bind, !value_collect_map, !value_ret. f_equal.
    rewrite !map_app. simpl map.
    rewrite E, value_bind, value_collect_map, value_ret.
    apply join_splice. destruct children; [congruence | discriminate].
  - rewrite !records_bind, !records_collect_map. f_equal.
    rewrite !flat_map_app. simpl flat_map.
    rewrite E, records_bind, records_collect_map. simpl.
    now rewrite app_nil_r.
Qed.

(** X3. A sequence that is not empty renders, among the children of an
    element or of another sequence, as its own children would in its place:
    the result and the log are the same, for every indent and inline flag.
    (An empty sequence among block children leaves an empty line.) *)
Theorem sequence_splices_into_parent :
  (forall type attributes classes children pre post indent inline,
      children <> [] ->
      render (Element type attributes (pre ++ HtmlSequence children :: post)
                classes) indent inline
      = render (Element type attributes (pre ++ children ++ post) classes)
          indent inline)
  /\ (forall children pre post indent inline,
         children <> [] ->
         render (HtmlSequence (pre ++ HtmlSequence children :: post))
           indent inline
         = render (HtmlSequence (pre ++ children ++ post)) indent inline)
  /\ value (render (Element "div" []
                      [Element "hr" [] [] []; HtmlSequence [];
                       Element "hr" [] [] []] [])
              EmptyString false)
     = "<div>" ++ NL ++ "  <hr/>" ++ NL ++ NL ++ "  <hr/>" ++ NL ++ "</div>".
Proof.
  split; [|split; [|reflexivity]].
  - intros type attributes classes children pre post indent inline N.
    rewrite !render_Element. cbv zeta. rewrite existsb_splice.
    destruct (mem type VOID_ELEMENTS); [reflexivity|].
    destruct (existsb must_be_inline (pre ++ children ++ post));
      f_equal; now apply collect_join_splice.
  - intros children pre post indent inline N.
    change (render (HtmlSequence (pre ++ HtmlSequence children :: post))
              indent inline)
      with (if inline
            then parts <- collect
                            (map (fun c => render c EmptyString true)
                               (pre ++ HtmlSequence children :: post)) ;;
                 ret (PyStr.join EmptyString parts)
            else parts <- collect
                            (map (fun c => render c indent false)
                               (pre ++ HtmlSequence children :: post)) ;;
                 ret (PyStr.join NL parts)).
    change (render (HtmlSequence (pre ++ children ++ post)) indent inline)
      with (if inline
            then parts <- collect
                            (map (fun c => render c EmptyString true)
                               (pre ++ children ++ post)) ;;
                 ret (PyStr.join EmptyString parts)
            else parts <- collect
                            (map (fun c => render c indent false)
                               (pre ++ children ++ post)) ;;
                 ret (PyStr.join NL parts)).
    destruct inline;
      now apply (collect_join_splice _ _ (fun s => s)).
Qed.

Lemma sequence_splices_into_parent_witness :
  [Element "li" [] [] []; Element "li" [] [] []] <> []
  /\ render (Element "ul" []
               [HtmlSequence [Element "li" [] [] []; Element "li" [] [] []]]
               [])
       "  " true
     = render (Element "ul" []
                 [Element "li" [] [] []; Element "li" [] [] []] [])
         "  " true.
Proof.
  assert (N : [Element "li" [] [] []; Element "li" [] [] []] <> [])
    by discriminate.
  split; [exact N|].
  exact (proj1 sequence_splices_into_parent "ul" [] []
           [Element "li" [] [] []; Element "li" [] [] []] [] []
           "  " true N).
Defined.

(** X4. Calls of [containing] chain: appending one batch of items and then
    another is appending the two batches at once, and appending nothing
    changes nothing. *)
Theorem containing_chains (self : HtmlRenderable) (items items' : list Contents) :
  containing (containing self items) items'
  = containing self (items ++ items')%list
  /\ containing self [] = self.
Proof.
  destruct self as [type attributes children classes | children | s];
    simpl; split; try reflexivity.
  - now rewrite map_app, app_assoc.
  - now rewrite app_nil_r.
Qed.

(** ** Updating dictionaries *)

Section DictUpdate.
Context {V : Type}.
Implicit Types (d : dict V) (k : string) (v : V).

Lemma dict_set_new k v d :
  dict_mem k d = false -> dict_set k v d = (d ++ [(k, v)])%list.
Proof.
  unfold dict_mem. induction d as [|[k' v'] d IH]; simpl.
  - reflexivity.
  - destruct (String.eqb k k'); [discriminate|].
    intros H. now rewrite IH.
Qed.

Lemma dict_mem_set k k' v d :
  dict_mem k (dict_set k' v d) = String.eqb k k' || dict_mem k d.
Proof.
  unfold dict_mem. destruct (String.eqb_spec k k') as [->|N].
  - now rewrite dict_get_set_same.
  - now rewrite dict_get_set_other.
Qed.

(** The keys after an update: those of the dictionary, in their order, then
    the new ones in the order of the update. *)
Lemma keys_dict_update d (items : list (string * V)) :
  NoDup (keys items) ->
  keys (dict_update d items)
  = (keys d ++ filter (fun k => negb (dict_mem k d)) (keys items))%list.
Proof.
  revert d. induction items as [|[k v] items IH]; intros d ND.
  - simpl. now rewrite app_nil_r.
  - inversion ND as [|? ? N ND']; subst.
    change (dict_update d ((k, v) :: items))
      with (dict_update (dict_set k v d) items).
    rewrite IH by assumption. simpl keys at 3. simpl filter.
    assert (F : filter (fun k0 => negb (dict_mem k0 (dict_set k v d)))
                  (keys items)
                = filter (fun k0 => negb (dict_mem k0 d)) (keys items)).
    { apply filter_ext_in. intros k0 I. rewrite dict_mem_set.
      destruct (String.eqb_spec k0 k) as [->|_]; [contradiction | reflexivity]. }
    rewrite F. destruct (dict_mem k d) eqn:M; simpl.
    + now rewrite keys_dict_set_mem.
    + rewrite keys_dict_set_new by assumption. now rewrite <- app_assoc.
Qed.

End DictUpdate.

(** X5. [with_attribute] on an element logs nothing and touches the
    attributes only: every keyword given holds its value afterwards, the
    other attributes hold what they held, the attributes there before keep
    their order and the new ones follow in the order of the call.  On a
    sequence and on a text node it logs a warning and returns the node as it
    is. *)
Theorem with_attribute_updates :
  (forall type attributes children classes (items : list (string * AttrValue)),
      NoDup (keys items) ->
      exists attributes',
        with_attribute (Element type attributes children classes) items
        = (Element type attributes' children classes, [])
        /\ (forall k v, In (k, v) items -> dict_get k attributes' = Some v)
        /\ (forall k, ~ In k (keys items) ->
                      dict_get k attributes' = dict_get k attributes)
        /\ keys attributes'
           = (keys attributes
              ++ filter (fun k => negb (dict_mem k attributes)) (keys items))%list)
  /\ (forall children items,
         with_attribute (HtmlSequence children) items
         = (HtmlSequence children, [WithAttributeIgnored]))
  /\ (forall s items,
         with_attribute (HtmlStr s) items
         = (HtmlStr s, [WithAttributeIgnored])).
Proof.
  split; [|split; reflexivity].
  intros type attributes children classes items ND.
  exists (dict_update attributes items). split; [reflexivity|].
  split; [|split].
  - intros k v I. now apply dict_get_update_in.
  - intros k N. now apply dict_get_update_other.
  - now apply keys_dict_update.
Qed.

Lemma with_attribute_updates_witness :
  NoDup (keys [("id", AStr "new"); ("title", AStr "t")])
  /\ exists attributes',
       with_attribute
         (Element "a" [("href", AStr "/"); ("id", AStr "old")] [] [])
         [("id", AStr "new"); ("title", AStr "t")]
       = (Element "a" attributes' [] [], [])
       /\ keys attributes' = ["href"; "id"; "title"].
Proof.
  assert (ND : NoDup (keys [("id", AStr "new"); ("title", AStr "t")])).
  { repeat constructor; simpl; intuition discriminate. }
  split; [exact ND|].
  destruct (proj1 with_attribute_updates "a"
              [("href", AStr "/"); ("id", AStr "old")] [] []
              [("id", AStr "new"); ("title", AStr "t")] ND)
    as [attributes' [E [_ [_ K]]]].
  exists attributes'. split; [exact E | exact K].
Defined.

(** ** Attributes in a tag *)

Lemma render_attributes_unfold (attrs : Attributes) (classes : list string) :
  render_attributes attrs classes
  = class_text classes ++ PyStr.join EmptyString (map attribute_text attrs).
Proof.
  unfold render_attributes. rewrite fold_append_attribute. f_equal.
  destruct classes as [|c classes]; [reflexivity|].
  unfold list_append, class_text. simpl map at 1.
  rewrite join_empty_cons. simpl. now rewrite append_nil_r.
Qed.

(** X6. An attribute set under a name the element does not have yet is
    rendered after all the attributes it has; and the attributes whose value
    is false or None can be left out of the dictionary without a change to
    the rendered text. *)
Theorem render_attributes_order :
  (forall (attrs : Attributes) classes name v,
      dict_mem name attrs = false ->
      render_attributes (dict_set name v attrs) classes
      = render_attributes attrs classes ++ attribute_text (name, v))
  /\ (forall (attrs : Attributes) classes,
         render_attributes
           (filter (fun item => negb (omitted (snd item))) attrs) classes
         = render_attributes attrs classes).
Proof.
  split.
  - intros attrs classes name v M.
    rewrite (dict_set_new _ _ _ M), !render_attributes_unfold.
    rewrite map_app, join_empty_app, append_assoc. simpl map.
    now rewrite join_empty_cons, append_nil_r.
  - intros attrs classes. rewrite !render_attributes_unfold. f_equal.
    induction attrs as [|[name v] attrs IH]; [reflexivity|].
    simpl filter. simpl map. rewrite join_empty_cons, <- IH.
    destruct v as [s|[|]|]; simpl negb; cbv iota;
      simpl map; rewrite ?join_empty_cons; reflexivity.
Qed.

Lemma render_attributes_order_witness :
  dict_mem "title" [("href", AStr "/"); ("hidden", ABool false)] = false
  /\ render_attributes
       (dict_set "title" (AStr "t")
          [("href", AStr "/"); ("hidden", ABool false)]) []
     = " href=" ++ DQ ++ "/" ++ DQ ++ " title=" ++ DQ ++ "t" ++ DQ.
Proof.
  split; [reflexivity|].
  exact (proj1 render_attributes_order
           [("href", AStr "/"); ("hidden", ABool false)] [] "title" (AStr "t")
           eq_refl).
Defined.

(** ** Sets of classes *)

Lemma mem_true_In (x : string) (s : list string) : mem x s = true <-> In x s.
Proof.
  unfold mem. rewrite existsb_exists. split.
  - intros [y [Hy E]]. apply String.eqb_eq in E. now subst.
  - intros H. exists x. split; [assumption | apply String.eqb_refl].
Qed.

Lemma set_add_In (x c : string) (s : list string) :
  In c (set_add x s) <-> In c s \/ c = x.
Proof.
  unfold set_add, list_append. destruct (mem x s) eqn:M.
  - apply mem_true_In in M. split; [auto | intros [H| ->]; assumption].
  - rewrite in_app_iff. simpl. intuition congruence.
Qed.

Lemma set_add_NoDup (x : string) (s : list string) :
  NoDup s -> NoDup (set_add x s).
Proof.
  intros ND. unfold set_add, list_append. destruct (mem x s) eqn:M.
  - assumption.
  - apply NoDup_app; [assumption | repeat constructor; auto |].
    intros y Hy [<-|[]]. apply mem_true_In in Hy. congruence.
Qed.

Lemma add_all_In (classnames : list string) :
  forall (s : list string) c,
    In c (fold_left (fun s x => set_add x s) classnames s)
    <-> In c s \/ In c classnames.
Proof.
  induction classnames as [|x xs IH]; intros s c; simpl.
  - tauto.
  - rewrite IH, set_add_In. intuition congruence.
Qed.

Lemma add_all_NoDup (classnames : list string) :
  forall s, NoDup s ->
            NoDup (fold_left (fun s x => set_add x s) classnames s).
Proof.
  induction classnames as [|x xs IH]; intros s ND; simpl.
  - assumption.
  - apply IH. now apply set_add_NoDup.
Qed.

Lemma add_all_present (classnames : list string) :
  forall s, (forall c, In c classnames -> In c s) ->
            fold_left (fun s x => set_add x s) classnames s = s.
Proof.
  induction classnames as [|x xs IH]; intros s H; simpl.
  - reflexivity.
  - assert (M : mem x s = true) by (apply mem_true_In, H; now left).
    unfold set_add at 2. rewrite M. apply IH. intros c I. apply H. now right.
Qed.

(** X7. [with_class] on an element logs nothing and touches the classes
    only: afterwards the classes are those there before and those given, no
    class stands twice among them, and giving classes the element already
    has changes nothing, so that a call repeated is a call made once.  On a
    sequence and on a text node it logs a warning and returns the node as it
    is. *)
Theorem with_class_adds :
  (forall type attributes children classes classnames,
      NoDup classes ->
      exists classes',
        with_class (Element type attributes children classes) classnames
        = (Element type attributes children classes', [])
        /\ NoDup classes'
        /\ (forall c, In c classes' <-> In c classes \/ In c classnames)
        /\ with_class (Element type attributes children classes') classnames
           = (Element type attributes children classes', []))
  /\ (forall children classnames,
         with_class (HtmlSequence children) classnames
         = (HtmlSequence children, [WithClassIgnored]))
  /\ (forall s classnames,
         with_class (HtmlStr s) classnames = (HtmlStr s, [WithClassIgnored])).
Proof.
  split; [|split; reflexivity].
  intros type attributes children classes classnames ND.
  exists (fold_left (fun s x => set_add x s) classnames classes).
  split; [reflexivity|]. split; [|split].
  - now apply add_all_NoDup.
  - intros c. apply add_all_In.
  - unfold with_class, ret. f_equal. f_equal.
    apply add_all_present. intros c I. apply add_all_In. now right.
Qed.

Lemma with_class_adds_witness :
  NoDup ["box"]
  /\ exists classes',
       with_class (Element "div" [] [] ["box"]) ["wide"; "box"; "wide"]
       = (Element "div" [] [] classes', [])
       /\ NoDup classes'.
Proof.
  assert (ND : NoDup ["box"]) by (repeat constructor; simpl; tauto).
  split; [exact ND|].
  destruct (proj1 with_class_adds "div" [] [] ["box"] ["wide"; "box"; "wide"]
              ND)
    as [classes' [E [ND' _]]].
  exists classes'. split; [exact E | exact ND'].
Defined.

(** ** The key [with_data] refuses *)

Lemma check_data_keys_first (data : dict string) (key : string) :
  check_data_keys data = inl (ValueError key)
  <-> exists front back,
        keys data = (front ++ key :: back)%list
        /\ forallb valid_data_key front = true
        /\ valid_data_key key = false.
Proof.
  induction data as [|[k v] data IH]; simpl.
  - split; [discriminate | intros [[|? ?] [back [E _]]]; discriminate].
  - rewrite data_key_pattern_valid.
    destruct (valid_data_key k) eqn:Vk; simpl.
    + rewrite IH. split.
      * intros [front [back [E [F N]]]]. exists (k :: front), back.
        simpl. now rewrite E, Vk, F.
      * intros [[|k0 front] [back [E [F N]]]]; simpl in E; injection E as <- E.
        -- congruence.
        -- simpl in F. apply andb_true_iff in F as [_ F].
           exists front, back. auto.
    + split.
      * intros E. injection E as <-. exists [], (keys data). auto.
      * intros [[|k0 front] [back [E [F N]]]]; simpl in E; injection E as <- E.
        -- reflexivity.
        -- simpl in F. rewrite Vk in F. discriminate.
Qed.

(** X8. The [ValueError] of [with_data] names the first key, in the order
    of the dictionary, that does not match the pattern: the keys before it
    are valid, and nothing is said of the keys after it. *)
Theorem with_data_reports_first_invalid_key
  (self : HtmlRenderable) (data : dict string) (key : string) :
  with_data self data = inl (ValueError key)
  <-> exists front back,
        keys data = (front ++ key :: back)%list
        /\ forallb valid_data_key front = true
        /\ valid_data_key key = false.
Proof.
  rewrite <- check_data_keys_first. unfold with_data.
  destruct (check_data_keys data) as [e|u].
  - split; intros H; injection H as ->; reflexivity.
  - destruct self; split; discriminate.
Qed.

(** ** The constructor of [Element] *)

Section DictDelete.
Context {V : Type}.
Implicit Types (d : dict V) (k : string).

Lemma dict_get_None_keys k d : dict_get k d = None <-> ~ In k (keys d).
Proof.
  rewrite <- dict_mem_In. unfold dict_mem.
  destruct (dict_get k d); split; congruence.
Qed.

Lemma dict_get_del_same k d :
  NoDup (keys d) -> dict_get k (dict_del k d) = None.
Proof.
  induction d as [|[k' v'] d IH]; simpl; intros ND.
  - reflexivity.
  - inversion ND as [|? ? N ND']; subst.
    destruct (String.eqb_spec k k') as [->|Nk].
    + now apply dict_get_None_keys.
    + simpl. apply String.eqb_neq in Nk. rewrite Nk. now apply IH.
Qed.

Lemma dict_get_del_other k k' d :
  k <> k' -> dict_get k (dict_del k' d) = dict_get k d.
Proof.
  intros N. induction d as [|[k0 v0] d IH]; simpl.
  - reflexivity.
  - destruct (String.eqb_spec k' k0) as [->|N0].
    + apply String.eqb_neq in N. now rewrite N.
    + simpl. destruct (String.eqb k k0); [reflexivity | exact IH].
Qed.

End DictDelete.

Lemma dict_get_attrs_of (k : string) (attributes : dict (option string)) :
  dict_get k (attrs_of attributes)
  = option_map attr_of (dict_get k attributes).
Proof.
  induction attributes as [|[k' v'] attributes IH]; simpl.
  - reflexivity.
  - destruct (String.eqb k k'); [reflexivity | exact IH].
Qed.

(** X9. The constructor of [Element] leaves an element without a string
    under the attribute [class] as it is given and logs nothing.  With a
    string there it logs one warning, takes the attribute out of the
    dictionary, leaves the other attributes alone and adds the words of the
    string to the classes: the element is the one [with_class] makes of
    these words and of the element without the attribute. *)
Theorem Element_init_moves_class :
  (forall type attributes children classes,
      dict_get "class" attributes = None
      \/ dict_get "class" attributes = Some None ->
      Element_init type attributes children classes
      = (Element type (attrs_of attributes) children classes, []))
  /\ (forall type attributes children classes class_str,
         NoDup (keys attributes) ->
         dict_get "class" attributes = Some (Some class_str) ->
         exists attributes' classes',
           Element_init type attributes children classes
           = (Element type attributes' children classes',
              [ClassAsAttributeWarning])
           /\ dict_get "class" attributes' = None
           /\ (forall k, k <> "class" ->
                         dict_get k attributes'
                         = option_map attr_of (dict_get k attributes))
           /\ (forall c, In c classes'
                         <-> In c classes \/ In c (PyStr.split class_str))
           /\ with_class (Element type attributes' children classes)
                (PyStr.split class_str)
              = (Element type attributes' children classes', [])).
Proof.
  split.
  - intros type attributes children classes [E|E];
      unfold Element_init; now rewrite E.
  - intros type attributes children classes class_str ND E.
    unfold Element_init. rewrite E.
    eexists. eexists. split; [reflexivity|]. split; [|split; [|split]].
    + rewrite dict_get_attrs_of, dict_get_del_same by assumption. reflexivity.
    + intros k N. rewrite !dict_get_attrs_of.
      now rewrite dict_get_del_other.
    + intros c. apply add_all_In.
    + reflexivity.
Qed.

Lemma Element_init_moves_class_witness :
  NoDup (keys [("id", Some "x"); ("class", Some " box  wide ")])
  /\ dict_get "class" [("id", Some "x"); ("class", Some " box  wide ")]
     = Some (Some " box  wide ")
  /\ exists attributes' classes',
       Element_init "div" [("id", Some "x"); ("class", Some " box  wide ")]
         [] ["box"]
       = (Element "div" attributes' [] classes', [ClassAsAttributeWarning])
       /\ dict_get "class" attributes' = None.
Proof.
  assert (ND : NoDup (keys [("id", Some "x"); ("class", Some " box  wide ")])).
  { repeat constructor; simpl; intuition discriminate. }
  split; [exact ND | split; [reflexivity|]].
  destruct (proj2 Element_init_moves_class "div"
              [("id", Some "x"); ("class", Some " box  wide ")] [] ["box"]
              " box  wide " ND eq_refl)
    as [attributes' [classes' [E [G _]]]].
  exists attributes', classes'. split; [exact E | exact G].
Defined.

(** ** Whitespace around a stored body *)

Lemma rstrip_String (c : ascii) (s : string) :
  PyStr.rstrip (String c s)
  = match PyStr.rstrip s with
    | EmptyString =>
        if PyStr.isspace c then EmptyString else String c EmptyString
    | kept => String c kept
    end.
Proof. reflexivity. Qed.

Lemma rstrip_idempotent (s : string) :
  PyStr.rstrip (PyStr.rstrip s) = PyStr.rstrip s.
Proof.
  induction s as [|c s IH]; [reflexivity|].
  rewrite rstrip_String. destruct (PyStr.rstrip s) as [|k ks] eqn:R.
  - destruct (PyStr.isspace c) eqn:W; [reflexivity|].
    rewrite rstrip_String. simpl PyStr.rstrip. now rewrite W.
  - rewrite rstrip_String, IH. reflexivity.
Qed.

Lemma lstrip_head (s : string) :
  match PyStr.lstrip s with
  | EmptyString => True
  | String c _ => PyStr.isspace c = false
  end.
Proof.
  induction s as [|c s IH]; simpl; [exact I|].
  destruct (PyStr.isspace c) eqn:W; [exact IH | exact W].
Qed.

Lemma strip_idempotent (s : string) :
  PyStr.strip (PyStr.strip s) = PyStr.strip s.
Proof.
  unfold PyStr.strip.
  assert (L : PyStr.lstrip (PyStr.rstrip (PyStr.lstrip s))
              = PyStr.rstrip (PyStr.lstrip s)).
  { pose proof (lstrip_head s) as H.
    destruct (PyStr.lstrip s) as [|c t]; [reflexivity|].
    rewrite rstrip_String.
    destruct (PyStr.rstrip t); rewrite ?H; cbn [PyStr.lstrip];
      now rewrite H. }
  rewrite L. apply rstrip_idempotent.
Qed.

(** ** Registrations *)

Lemma styles_register {A} (self : Registry)
  (reg : option string * ElementFunc A) :
  styles (register self reg)
  = match fst reg with
    | Some css =>
        dict_set (classname_of (__name__ (snd reg)))
          (PyStr.strip (textwrap.dedent css)) (styles self)
    | None => styles self
    end.
Proof.
  unfold register, style. rewrite value_bind.
  destruct (fst reg); reflexivity.
Qed.

Lemma register_keeps_keys_distinct {A} (self : Registry)
  (reg : option string * ElementFunc A) :
  NoDup (keys (styles self)) -> NoDup (keys (styles (register self reg))).
Proof.
  intros ND. rewrite styles_register. destruct (fst reg); [|exact ND].
  now apply NoDup_keys_dict_set.
Qed.

Lemma registrations_body {A} (regs : list (option string * ElementFunc A)) :
  forall (self : Registry) classname,
    dict_get classname (styles (fold_left register regs self))
    = match last_body classname regs with
      | Some body => Some body
      | None => dict_get classname (styles self)
      end.
Proof.
  induction regs as [|reg regs IH] using rev_ind; intros self classname.
  - reflexivity.
  - rewrite fold_left_app. simpl fold_left. rewrite styles_register.
    unfold last_body in *. rewrite rev_unit. simpl find.
    unfold registers at 1. destruct reg as [[css|] func]; simpl fst; simpl snd.
    + destruct (String.eqb_spec (classname_of (__name__ func)) classname)
        as [E|N].
      * rewrite E. apply dict_get_set_same.
      * rewrite dict_get_set_other by congruence. apply IH.
    + apply IH.
Qed.

Lemma registrations_keys_distinct {A}
  (regs : list (option string * ElementFunc A)) :
  forall self : Registry,
    NoDup (keys (styles self)) ->
    NoDup (keys (styles (fold_left register regs self))).
Proof.
  induction regs as [|reg regs IH]; intros self ND; simpl.
  - exact ND.
  - apply IH. now apply register_keeps_keys_distinct.
Qed.

(** X10. After any run of decorations on a new registry, no class stands
    twice in the registry, so the stylesheet has one block for each class;
    the body held for a class is the dedented and stripped body of the last
    decoration that gave a body and whose function derives the class, and a
    class no such decoration derives is not in the registry; and every body
    held is free of whitespace at both ends. *)
Theorem registrations_last_wins {A}
  (regs : list (option string * ElementFunc A)) :
  let r := fold_left register regs Registry_init in
  NoDup (keys (styles r))
  /\ (forall classname,
         dict_get classname (styles r) = last_body classname regs)
  /\ (forall classname body,
         dict_get classname (styles r) = Some body ->
         PyStr.strip body = body).
Proof.
  intros r. subst r.
  assert (B : forall classname,
             dict_get classname (styles (fold_left register regs Registry_init))
             = last_body classname regs).
  { intros classname. rewrite registrations_body.
    now destruct (last_body classname regs). }
  split; [|split].
  - apply registrations_keys_distinct. constructor.
  - exact B.
  - intros classname body E. rewrite B in E. unfold last_body in E.
    destruct (find (registers classname) (rev regs)) as [[[css|] func]|];
      try discriminate.
    injection E as <-. apply strip_idempotent.
Qed.

(** X11. Decorating with a body a function whose class is not in the
    registry logs nothing and puts the class after those already there: its
    block is the last of the stylesheet, after a newline when there are
    others. *)
Theorem style_registers_new_class {A} (self : Registry) (css : string)
  (func : ElementFunc A) :
  let classname := classname_of (__name__ func) in
  let body := PyStr.strip (textwrap.dedent css) in
  dict_mem classname (styles self) = false ->
  let self' := fst (value (style self (Some css) func)) in
  records (style self (Some css) func) = []
  /\ styles self' = (styles self ++ [(classname, body)])%list
  /\ render_stylesheet self'
     = match styles self with
       | [] => render_block (classname, body)
       | _ => render_stylesheet self ++ NL ++ render_block (classname, body)
       end.
Proof.
  intros classname body M self'.
  assert (S : styles self' = (styles self ++ [(classname, body)])%list).
  { subst self'. unfold style. rewrite value_bind. simpl.
    now apply dict_set_new. }
  split; [|split; [exact S|]].
  - unfold style. rewrite records_bind. fold classname. rewrite M.
    reflexivity.
  - unfold render_stylesheet. rewrite S, map_app.
    destruct (styles self) as [|item items]; [reflexivity|].
    rewrite join_app by discriminate. reflexivity.
Qed.

Lemma style_registers_new_class_witness :
  let page_title :=
    {| __name__ := "page_title";
       call := fun _ : unit => ret (Element "h1" [] [] []) |} in
  let r := {| styles := [("demo-box", "color: red;")] |} in
  dict_mem "page-title" (styles r) = false
  /\ records (style r (Some "font-size: 1em;") page_title) = []
  /\ styles (fst (value (style r (Some "font-size: 1em;") page_title)))
     = [("demo-box", "color: red;"); ("page-title", "font-size: 1em;")].
Proof.
  cbv zeta. split; [reflexivity|].
  pose proof (style_registers_new_class
                {| styles := [("demo-box", "color: red;")] |}
                "font-size: 1em;"
                {| __name__ := "page_title";
                   call := fun _ : unit => ret (Element "h1" [] [] []) |}
                eq_refl) as [H1 [H2 _]].
  split; [exact H1 | exact H2].
Defined.



Lemma registrations_last_wins_witness :
  let f := fun name : string =>
             {| __name__ := name;
                call := fun _ : unit => ret (Element "div" [] [] []) |} in
  let regs := [(Some " color: red; ", f "demo_box"); (None, f "page_title");
               (Some "color: blue;", f "demo-box")] in
  let r := fold_left register regs Registry_init in
  dict_get "demo-box" (styles r) = Some "color: blue;"
  /\ PyStr.strip "color: blue;" = "color: blue;".
Proof.
  cbv zeta. split; [reflexivity|].
  apply (proj2 (proj2 (registrations_last_wins
                         [(Some " color: red; ",
                           {| __name__ := "demo_box";
                              call := fun _ : unit =>
                                        ret (Element "div" [] [] []) |});
                          (None,
                           {| __name__ := "page_title";
                              call := fun _ : unit =>
                                        ret (Element "div" [] [] []) |});
                          (Some "color: blue;",
                           {| __name__ := "demo-box";
                              call := fun _ : unit =>
                                        ret (Element "div" [] [] []) |})]))
           "demo-box" "color: blue;").
  reflexivity.
Defined.

(** ** The class of a function *)

Lemma replace_char_append (old : ascii) (new a b : string) :
  PyStr.replace_char old new (a ++ b)
  = PyStr.replace_char old new a ++ PyStr.replace_char old new b.
Proof.
  induction a as [|c a IH]; simpl; [reflexivity|].
  destruct (Ascii.eqb c old); rewrite IH; simpl.
  - now rewrite append_assoc.
  - reflexivity.
Qed.

Lemma length_append (a b : string) :
  String.length (a ++ b) = String.length a + String.length b.
Proof. induction a as [|c a IH]; simpl; [reflexivity | now rewrite IH]. Qed.

Lemma substring_0_append (a b : string) :
  String.substring 0 (String.length a) (a ++ b) = a.
Proof. induction a as [|c a IH]; simpl; [now destruct b | now rewrite IH]. Qed.

Lemma removesuffix_append_hyphen (x : string) :
  PyStr.removesuffix (x ++ "-") "-" = x.
Proof.
  unfold PyStr.removesuffix. rewrite endswith_append. simpl negb. cbv iota.
  rewrite length_append. simpl String.length.
  replace (String.length x + 1 - 1) with (String.length x) by lia.
  apply substring_0_append.
Qed.

Lemma contains_char_replace (old : ascii) (new s : string) :
  PyStr.contains (String old EmptyString) new = false ->
  PyStr.contains (String old EmptyString) (PyStr.replace_char old new s)
  = false.
Proof.
  intros N. induction s as [|c s IH]; [reflexivity|].
  simpl PyStr.replace_char. destruct (Ascii.eqb c old) eqn:E.
  - now rewrite contains_char_append, N, IH.
  - rewrite contains_char_cons, IH, Ascii.eqb_sym, E. reflexivity.
Qed.

Lemma contains_char_substring_0 (c : ascii) (s : string) :
  forall n,
    PyStr.contains (String c EmptyString) s = false ->
    PyStr.contains (String c EmptyString) (String.substring 0 n s) = false.
Proof.
  induction s as [|x s IH]; intros [|n] H; try reflexivity.
  simpl String.substring. rewrite contains_char_cons in *.
  apply orb_false_iff in H as [H1 H2]. now rewrite H1, IH.
Qed.

(** X13. The class derived from the name of a function has no underscore.
    The name followed by one underscore, and the name followed by one
    hyphen, derive the class of the name with hyphens for underscores, the
    class the name itself derives unless that one ends with a hyphen. *)
Theorem classname_of_hyphenates :
  (forall name, PyStr.contains "_" (classname_of name) = false)
  /\ (forall name,
         classname_of (name ++ "_") = PyStr.replace_char "_" "-" name)
  /\ (forall name,
         classname_of (name ++ "-") = PyStr.replace_char "_" "-" name)
  /\ (forall name,
         PyStr.endswith (PyStr.replace_char "_" "-" name) "-" = false ->
         classname_of name = PyStr.replace_char "_" "-" name).
Proof.
  split; [|split; [|split]].
  - intros name. unfold classname_of, PyStr.removesuffix.
    assert (R : PyStr.contains "_" (PyStr.replace_char "_" "-" name) = false)
      by now apply contains_char_replace.
    destruct (negb (String.eqb "-" EmptyString)
              && PyStr.endswith (PyStr.replace_char "_" "-" name) "-").
    + now apply contains_char_substring_0.
    + exact R.
  - intros name. unfold classname_of. rewrite replace_char_append.
    apply removesuffix_append_hyphen.
  - intros name. unfold classname_of. rewrite replace_char_append.
    apply removesuffix_append_hyphen.
  - intros name E. unfold classname_of, PyStr.removesuffix.
    now rewrite E, andb_false_r.
Qed.

Lemma classname_of_hyphenates_witness :
  PyStr.endswith (PyStr.replace_char "_" "-" "page_title") "-" = false
  /\ classname_of "page_title" = "page-title".
Proof.
  split; [reflexivity|].
  exact (proj2 (proj2 (proj2 classname_of_hyphenates)) "page_title" eq_refl).
Defined.

(** ** Escaped text *)

Lemma escape_char_safe (c0 c : ascii) :
  c = "<"%char \/ c = ">"%char \/ c = DQUOTE \/ c = "'"%char ->
  PyStr.contains (String c EmptyString) (escape_char c0) = false.
Proof.
  intros H. unfold escape_char.
  destruct (Ascii.eqb_spec c0 "&");
    [destruct H as [->|[->|[->| ->]]]; reflexivity|].
  destruct (Ascii.eqb_spec c0 "<");
    [destruct H as [->|[->|[->| ->]]]; reflexivity|].
  destruct (Ascii.eqb_spec c0 ">");
    [destruct H as [->|[->|[->| ->]]]; reflexivity|].
  destruct (Ascii.eqb_spec c0 DQUOTE);
    [destruct H as [->|[->|[->| ->]]]; reflexivity|].
  destruct (Ascii.eqb_spec c0 "'");
    [destruct H as [->|[->|[->| ->]]]; reflexivity|].
  rewrite contains_char_cons. simpl PyStr.contains.
  apply orb_false_iff. split; [|reflexivity].
  apply Ascii.eqb_neq. destruct H as [->|[->|[->| ->]]]; congruence.
Qed.

(** X14. Text escaped by [html.escape] holds no angle bracket, no double
    quote and no apostrophe: an escaped value cannot end the quotes it is
    put between in a tag, nor open or close a tag. *)
Theorem escape_leaves_no_markup (s : string) (c : ascii) :
  c = "<"%char \/ c = ">"%char \/ c = DQUOTE \/ c = "'"%char ->
  PyStr.contains (String c EmptyString) (html.escape s) = false.
Proof.
  intros H. induction s as [|c0 s IH]; [reflexivity|].
  now rewrite escape_String, contains_char_append, escape_char_safe, IH.
Qed.

Lemma escape_leaves_no_markup_witness :
  (DQUOTE = "<"%char \/ DQUOTE = ">"%char \/ DQUOTE = DQUOTE
   \/ DQUOTE = "'"%char)
  /\ PyStr.contains DQ (html.escape ("a" ++ DQ ++ " onclick=" ++ DQ ++ "x"))
     = false.
Proof.
  assert (H : DQUOTE = "<"%char \/ DQUOTE = ">"%char \/ DQUOTE = DQUOTE
              \/ DQUOTE = "'"%char) by (right; right; left; reflexivity).
  split; [exact H|].
  exact (escape_leaves_no_markup ("a" ++ DQ ++ " onclick=" ++ DQ ++ "x")
           DQUOTE H).
Defined.

Lemma escape_char_cases (c : ascii) :
  c = "&"%char \/ c = "<"%char \/ c = ">"%char \/ c = DQUOTE \/ c = "'"%char
  \/ (escape_char c = String c EmptyString /\ c <> "&"%char).
Proof.
  unfold escape_char.
  destruct (Ascii.eqb_spec c "&"); [tauto|].
  destruct (Ascii.eqb_spec c "<"); [tauto|].
  destruct (Ascii.eqb_spec c ">"); [tauto|].
  destruct (Ascii.eqb_spec c DQUOTE); [tauto|].
  destruct (Ascii.eqb_spec c "'"); [tauto|].
  right. right. right. right. right. split; [reflexivity | assumption].
Qed.

Ltac escape_head c H :=
  let E := fresh "E" in
  let N := fresh "N" in
  destruct (escape_char_cases c) as [->|[->|[->|[->|[->|[E N]]]]]];
  [ change (escape_char "&") with "&amp;" in H
  | change (escape_char "<") with "&lt;" in H
  | change (escape_char ">") with "&gt;" in H
  | change (escape_char DQUOTE) with "&quot;" in H
  | change (escape_char "'") with "&#x27;" in H
  | rewrite E in H; clear E ].

(** X15. [html.escape] loses nothing: two texts with the same escaped text
    are the same text. *)
Theorem escape_injective (a b : string) :
  html.escape a = html.escape b -> a = b.
Proof.
  revert b. induction a as [|c1 a IH]; intros [|c2 b] H.
  - reflexivity.
  - exfalso. rewrite escape_String in H.
    change (html.escape EmptyString) with EmptyString in H.
    remember (html.escape b) as eb. escape_head c2 H; discriminate H.
  - exfalso. rewrite escape_String in H.
    change (html.escape EmptyString) with EmptyString in H.
    remember (html.escape a) as ea. escape_head c1 H; discriminate H.
  - rewrite !escape_String in H.
    assert (G : c1 = c2 /\ html.escape a = html.escape b).
    { remember (html.escape a) as ea. remember (html.escape b) as eb.
      escape_head c1 H; escape_head c2 H; cbn [append] in H;
        first [ discriminate H
              | injection H; intros; subst; split; congruence
              | exfalso; injection H; intros; congruence ]. }
    destruct G as [-> G]. f_equal. now apply IH.
Qed.

Lemma escape_injective_witness :
  html.escape "a&b" = html.escape ("a" ++ "&b") /\ "a&b" = "a" ++ "&b".
Proof.
  split; [reflexivity|].
  exact (escape_injective "a&b" ("a" ++ "&b") eq_refl).
Defined.

(** ** The inline layout *)

(** X16. An element that is not void and one of whose children must be
    inline, a text node or a sequence that holds one at any depth of
    sequences, is laid out on one line, whatever inline flag is given: the
    children are rendered without indent and with the flag true, one after
    the other between the tags, at the indent of the element, or without
    indent for a no-indent tag. *)
Theorem element_inline_layout
  (type : string) (attributes : Attributes) (children : list HtmlRenderable)
  (classes : list string) (indent : string) (inline : bool) :
  mem type VOID_ELEMENTS = false ->
  existsb must_be_inline children = true ->
  value (render (Element type attributes children classes) indent inline)
  = (if mem type NO_INDENT_ELEMENTS then EmptyString else indent)
    ++ "<" ++ type ++ render_attributes attributes classes ++ ">"
    ++ PyStr.join EmptyString
         (map (fun c => value (render c EmptyString true)) children)
    ++ "</" ++ type ++ ">".
Proof.
  intros V I. rewrite render_Element. cbv zeta.
  rewrite V, I, !value_bind, value_render_tag, value_collect_map, value_ret.
  cbv zeta.
  destruct (mem type NO_INDENT_ELEMENTS); simpl; now rewrite ?append_assoc.
Qed.

Lemma element_inline_layout_witness :
  mem "p" VOID_ELEMENTS = false
  /\ existsb must_be_inline
       [HtmlSequence [Element "b" [] [HtmlStr "x"] []; HtmlStr "y"]]
     = true
  /\ value (render
              (Element "p" []
                 [HtmlSequence [Element "b" [] [HtmlStr "x"] []; HtmlStr "y"]]
                 [])
              "  " false)
     = "  <p><b>x</b>y</p>".
Proof.
  split; [reflexivity | split; [reflexivity|]].
  exact (element_inline_layout "p" []
           [HtmlSequence [Element "b" [] [HtmlStr "x"] []; HtmlStr "y"]]
           [] "  " false eq_refl eq_refl).
Defined.

(** ** The older variant *)




(** X18. On attributes that are strings or None the function
    [render_attrs] of the older variant and [render_attributes], without
    classes, give the same text. *)
Theorem legacy_render_attrs_agrees (attrs : dict (option string)) :
  Legacy.render_attrs attrs = render_attributes (attrs_of attrs) [].
Proof.
  rewrite render_attributes_unfold. unfold Legacy.render_attrs.
  simpl class_text. simpl append.
  induction attrs as [|[key [v|]] attrs IH]; simpl flat_map; simpl map.
  - reflexivity.
  - change ((?x :: nil) ++ ?l)%list with (x :: l).
    simpl app. now rewrite !join_empty_cons, IH.
  - simpl app. rewrite join_empty_cons, IH. reflexivity.
Qed.

(** ** Trees that render on one line *)

Lemma one_line_Element type attributes children classes :
  one_line (Element type attributes children classes)
  = negb (PyStr.contains NL type)
    && negb (PyStr.contains NL (render_attributes attributes classes))
    && (mem type VOID_ELEMENTS
        || (existsb must_be_inline children && forallb one_line children)).
Proof. reflexivity. Qed.

Lemma value_render_children_one_line (children : list HtmlRenderable) :
  Forall (fun c =>
            one_line c = true ->
            forall indent,
              PyStr.contains NL indent = false ->
              PyStr.contains NL (value (render c indent true)) = false)
    children ->
  forallb one_line children = true ->
  PyStr.contains NL
    (PyStr.join EmptyString
       (map (fun c => value (render c EmptyString true)) children))
  = false.
Proof.
  intros IH O. apply contains_char_join_empty. intros p Hp.
  apply in_map_iff in Hp as [c [<- I]].
  rewrite Forall_forall in IH. rewrite forallb_forall in O.
  apply IH; [assumption | now apply O | reflexivity].
Qed.

Lemma render_one_line (self : HtmlRenderable) :
  one_line self = true ->
  forall indent,
    PyStr.contains NL indent = false ->
    PyStr.contains NL (value (render self indent true)) = false.
Proof.
  induction self as [type attributes children classes IH | children IH | s]
    using HtmlRenderable_tree_ind; intros O indent Hi.
  - rewrite one_line_Element in O.
    apply andb_true_iff in O as [O O3]. apply andb_true_iff in O as [O1 O2].
    apply negb_true_iff in O1, O2.
    assert (Hi' : PyStr.contains NL
                    (if mem type NO_INDENT_ELEMENTS then EmptyString
                     else indent) = false)
      by (destruct (mem type NO_INDENT_ELEMENTS); auto).
    rewrite render_Element. cbv zeta.
    rewrite value_bind, value_render_tag. cbv zeta.
    destruct (mem type VOID_ELEMENTS) eqn:V.
    + rewrite value_ret. unfold NL in *.
      now rewrite !contains_char_append, Hi', O1, O2.
    + simpl in O3. apply andb_true_iff in O3 as [I F].
      rewrite I, value_bind, value_collect_map, value_ret.
      assert (J := value_render_children_one_line children IH F).
      replace (if mem type NO_INDENT_ELEMENTS then true else true) with true
        by (destruct (mem type NO_INDENT_ELEMENTS); reflexivity).
      unfold NL in *.
      now rewrite !contains_char_append, Hi', O1, O2, J.
  - simpl render. rewrite value_bind, value_collect_map, value_ret.
    now apply value_render_children_one_line.
  - simpl in *. apply negb_true_iff in O. unfold NL in *.
    now rewrite contains_char_append, Hi, O.
Qed.

(** X19. A tree without a newline in its texts, tags and attributes, in
    which every element that is not void has a child that must be inline,
    renders without a newline when the indent has none and the inline flag
    is true; an element of this kind does so for the flag false as well. *)
Theorem one_line_tree_renders_on_one_line :
  (forall self indent,
      one_line self = true ->
      PyStr.contains NL indent = false ->
      PyStr.contains NL (value (render self indent true)) = false)
  /\ (forall type attributes children classes indent inline,
         one_line (Element type attributes children classes) = true ->
         PyStr.contains NL indent = false ->
         PyStr.contains NL
           (value (render (Element type attributes children classes)
                     indent inline))
         = false).
Proof.
  split.
  - intros self indent O Hi. now apply render_one_line.
  - intros type attributes children classes indent inline O Hi.
    replace (render (Element type attributes children classes) indent inline)
      with (render (Element type attributes children classes) indent true)
      by now rewrite !render_Element.
    now apply render_one_line.
Qed.

Lemma one_line_tree_renders_on_one_line_witness :
  let tree :=
    Element "p" [("id", AStr "x")]
      [HtmlStr "a"; Element "b" [] [HtmlSequence [HtmlStr "c"]] [];
       Element "br" [] [] []] [] in
  one_line tree = true
  /\ PyStr.contains NL "    " = false
  /\ PyStr.contains NL (value (render tree "    " true)) = false.
Proof.
  cbv zeta. split; [reflexivity | split; [reflexivity|]].
  apply (proj1 one_line_tree_renders_on_one_line); reflexivity.
Defined.

(** ** The renderer of the older variant *)

Section LegacyTreeInduction.
Variable P : Legacy.HtmlRenderable -> Prop.
Hypothesis P_Element :
  forall type attributes children classes,
    Forall P children -> P (Legacy.Element type attributes children classes).
Hypothesis P_HtmlSequence :
  forall children, Forall P children -> P (Legacy.HtmlSequence children).
Hypothesis P_HtmlStr : forall s, P (Legacy.HtmlStr s).

Fixpoint Legacy_tree_ind (self : Legacy.HtmlRenderable) : P self :=
  let fix all (l : list Legacy.HtmlRenderable) : Forall P l :=
    match l with
    | [] => Forall_nil P
    | c :: l' => Forall_cons c (Legacy_tree_ind c) (all l')
    end in
  match self with
  | Legacy.Element type attributes children classes =>
      P_Element type attributes children classes (all children)
  | Legacy.HtmlSequence children => P_HtmlSequence children (all children)
  | Legacy.HtmlStr s => P_HtmlStr s
  end.

End LegacyTreeInduction.

Lemma legacy_render_Element_inline type attributes children classes indent :
  Legacy.render (Legacy.Element type attributes children classes) indent true
  = let indent :=
      if mem type NO_INDENT_ELEMENTS then EmptyString else indent in
    let attributes :=
      PyStr.join EmptyString
        (map (fun a => " " ++ a)
           (Legacy.render_attributes attributes classes)) in
    if mem type VOID_ELEMENTS
    then indent ++ "<" ++ type ++ attributes ++ "/>"
    else indent ++ ("<" ++ type ++ attributes ++ ">")
         ++ PyStr.join EmptyString
              (map (fun c => Legacy.render c EmptyString true) children)
         ++ "</" ++ type ++ ">".
Proof. reflexivity. Qed.

Lemma legacy_newline_free_Element type attributes children classes :
  Legacy.newline_free (Legacy.Element type attributes children classes)
  = negb (PyStr.contains NL type)
    && negb (PyStr.contains NL
               (PyStr.join EmptyString
                  (map (fun a => " " ++ a)
                     (Legacy.render_attributes attributes classes))))
    && forallb Legacy.newline_free children.
Proof. reflexivity. Qed.

Lemma legacy_children_one_line (children : list Legacy.HtmlRenderable) :
  Forall (fun c =>
            forall indent,
              Legacy.newline_free c = true ->
              PyStr.contains NL indent = false ->
              PyStr.contains NL (Legacy.render c indent true) = false)
    children ->
  forallb Legacy.newline_free children = true ->
  PyStr.contains NL
    (PyStr.join EmptyString
       (map (fun c => Legacy.render c EmptyString true) children))
  = false.
Proof.
  intros IH O. apply contains_char_join_empty. intros p Hp.
  apply in_map_iff in Hp as [c [<- I]].
  rewrite Forall_forall in IH. rewrite forallb_forall in O.
  apply IH; [assumption | now apply O | reflexivity].
Qed.

(** X20. The renderer of the older variant obeys the inline flag: with the
    flag true a tree without a newline in its texts, tags and attributes
    renders without a newline, whatever its elements contain.  The renderer
    of [htmlgen/__init__.py] does not: the division that holds an empty
    span, rendered with the flag true, has newlines. *)
Theorem legacy_render_inline_one_line :
  (forall self indent,
      Legacy.newline_free self = true ->
      PyStr.contains NL indent = false ->
      PyStr.contains NL (Legacy.render self indent true) = false)
  /\ Legacy.render
       (Legacy.Element "div" [] [Legacy.Element "span" [] [] []] [])
       EmptyString true
     = "<div><span></span></div>"
  /\ value (render (Element "div" [] [Element "span" [] [] []] [])
              EmptyString true)
     = "<div>" ++ NL ++ "  <span>" ++ NL ++ NL ++ "  </span>" ++ NL
       ++ "</div>".
Proof.
  split; [|split; reflexivity].
  intros self.
  induction self as [type attributes children classes IH | children IH | s]
    using Legacy_tree_ind; intros indent O Hi.
  - rewrite legacy_newline_free_Element in O.
    apply andb_true_iff in O as [O O3]. apply andb_true_iff in O as [O1 O2].
    apply negb_true_iff in O1, O2.
    assert (Hi' : PyStr.contains NL
                    (if mem type NO_INDENT_ELEMENTS then EmptyString
                     else indent) = false)
      by (destruct (mem type NO_INDENT_ELEMENTS); auto).
    assert (J := legacy_children_one_line children IH O3).
    rewrite legacy_render_Element_inline. cbv zeta. unfold NL in *.
    destruct (mem type VOID_ELEMENTS);
      now rewrite !contains_char_append, Hi', O1, O2, ?J.
  - simpl Legacy.render. now apply legacy_children_one_line.
  - simpl in *. apply negb_true_iff in O. unfold NL in *.
    now rewrite contains_char_append, Hi, O.
Qed.

Lemma legacy_render_inline_one_line_witness :
  let tree :=
    Legacy.Element "ul" [("hidden", None)]
      [Legacy.Element "li" [] [Legacy.Element "a" [] [] ["z"; "b"]] [];
       Legacy.Element "li" [] [] []] [] in
  Legacy.newline_free tree = true
  /\ PyStr.contains NL "  " = false
  /\ PyStr.contains NL (Legacy.render tree "  " true) = false.
Proof.
  cbv zeta. split; [reflexivity | split; [reflexivity|]].
  apply (proj1 legacy_render_inline_one_line); reflexivity.
Defined.
